(** * py4vasp: the magnetism refinement ([calculation/_magnetism.py])

    A shallow embedding of the [Magnetism] class and of the NumPy primitives
    it consumes, followed by the properties the specification states about
    them.

    - [Py]: Python exceptions as an error monad, and the step selectors
      (an integer index or a [slice]).
    - [Np]: n-dimensional arrays as a shape and an index function, with basic
      indexing, [moveaxis], [sum], [pad], [linalg.norm] and [max].
    - [Magnetism]: the methods of the class, with the source's names, taking
      the raw data and the selected steps as explicit arguments. *)

From Stdlib Require Import ZArith String Ascii List Bool Lia Floats DecimalString.
Import ListNotations.

Set Warnings "-inexact-float".

(* ================================================================== *)
(** * Python: exceptions, selectors, slices *)
(* ================================================================== *)

Module Py.

(** The exceptions that can leave the methods modelled here.  The two
    user-facing ones carry their message. *)
Inductive exn : Type :=
| IncorrectUsage (msg : string)
| NoData (msg : string)
| IndexError
| ValueError
| AxisError
| TypeError.

Inductive result (A : Type) : Type :=
| Ok (a : A)
| Raise (e : exn).

Arguments Ok {A} a.
Arguments Raise {A} e.

Definition bind {A B : Type} (c : result A) (k : A -> result B) : result B :=
  match c with
  | Ok a => k a
  | Raise e => Raise e
  end.

(** The message of the IncorrectUsage a computation ends in, if it does. *)
Definition usage_error {A : Type} (r : result A) : option string :=
  match r with
  | Raise (IncorrectUsage msg) => Some msg
  | _ => None
  end.

(** What a step selection can be: [obj[i]] or [obj[start:stop:step]], a
    missing slice field being Python's [None]. *)
Inductive selector : Type :=
| Index (i : Z)
| Slice (start stop step : option Z).

(** Modelled from the spec: the [_is_slice] attribute, which the slice mixin
    (not among the sources) sets next to [_steps]; the access pattern
    selected a slice rather than a single step, [isinstance(steps, slice)]. *)
Definition is_slice (s : selector) : bool :=
  match s with
  | Index _ => false
  | Slice _ _ _ => true
  end.

(** Integer indexing of an axis of length [n]: negative indices count from
    the end, anything outside [-n, n) is an [IndexError]. *)
Definition normalize_index (n : nat) (i : Z) : result nat :=
  if ((- Z.of_nat n <=? i) && (i <? Z.of_nat n))%Z
  then Ok (Z.to_nat (if (i <? 0)%Z then i + Z.of_nat n else i))
  else Raise IndexError.

(** The clamping of one slice bound ([PySlice_AdjustIndices]). *)
Definition adjust_bound (n step i : Z) : Z :=
  if (i <? 0)%Z then
    let i' := (i + n)%Z in
    if (i' <? 0)%Z then (if (step <? 0)%Z then -1 else 0)%Z else i'
  else if (n <=? i)%Z then (if (step <? 0)%Z then n - 1 else n)%Z
  else i.

(** [slice(start, stop, step).indices(n)], returned as the first selected
    position, the stride and the number of selected positions.  A zero step
    is a [ValueError]; bounds outside the axis are clamped, never refused. *)
Definition slice_indices (n : nat) (start stop step : option Z)
  : result (Z * Z * nat) :=
  let len := Z.of_nat n in
  let st := match step with Some s => s | None => 1%Z end in
  if (st =? 0)%Z then Raise ValueError
  else
    let lo := match start with
              | Some a => adjust_bound len st a
              | None => if (st <? 0)%Z then (len - 1)%Z else 0%Z
              end in
    let hi := match stop with
              | Some b => adjust_bound len st b
              | None => if (st <? 0)%Z then (-1)%Z else len
              end in
    let count :=
      if (st <? 0)%Z
      then (if (hi <? lo)%Z then (lo - hi - 1) / (- st) + 1 else 0)%Z
      else (if (lo <? hi)%Z then (hi - lo - 1) / st + 1 else 0)%Z in
    Ok (lo, st, Z.to_nat count).

(** [str(steps)], as it is interpolated into an error message. *)
Definition str_of_int (i : Z) : string := NilZero.string_of_int (Z.to_int i).

Definition str_of_field (f : option Z) : string :=
  match f with
  | Some i => str_of_int i
  | None => "None"
  end.

Definition str_of_selector (s : selector) : string :=
  match s with
  | Index i => str_of_int i
  | Slice a b c =>
      ("slice(" ++ str_of_field a ++ ", " ++ str_of_field b ++ ", "
         ++ str_of_field c ++ ")")%string
  end.

(** [needle in haystack] for strings, as a proposition. *)
Definition Substring (needle haystack : string) : Prop :=
  exists pre post, haystack = (pre ++ needle ++ post)%string.

(** ** [format(x, ".2f")] for a double

    Python prints the decimal with two fractional digits that is nearest to
    the exact binary value of [x], ties going to the even neighbour.  The
    exact value of a finite double is [m * 2^e]. *)
Definition round_half_even (num den : Z) : Z :=
  let q := (num / den)%Z in
  let r := (num mod den)%Z in
  if (den <? 2 * r)%Z then (q + 1)%Z
  else if (2 * r =? den)%Z && Z.odd q then (q + 1)%Z
  else q.

(** The magnitude of [m * 2^e] in hundredths, rounded. *)
Definition hundredths (m : positive) (e : Z) : Z :=
  if (0 <=? e)%Z then (Z.pos m * 2 ^ e * 100)%Z
  else round_half_even (Z.pos m * 100) (2 ^ (- e)).

Definition str_of_nat_Z (n : Z) : string := NilZero.string_of_uint (N.to_uint (Z.to_N n)).

Definition two_digits (n : Z) : string :=
  ((if (n <? 10)%Z then "0" else "") ++ str_of_nat_Z n)%string.

Definition sign_prefix (negative : bool) : string :=
  if negative then "-"%string else ""%string.

Definition format_2f (x : float) : string :=
  match Prim2SF x with
  | S754_nan => "nan"%string
  | S754_infinity s => (sign_prefix s ++ "inf")%string
  | S754_zero s => (sign_prefix s ++ "0.00")%string
  | S754_finite s m e =>
      let h := hundredths m e in
      (sign_prefix s ++ str_of_nat_Z (h / 100) ++ "." ++ two_digits (h mod 100))%string
  end.

(** Running a fallible function over a list, stopping at the first
    exception (a generator consumed by [str.join]). *)
Fixpoint map_result {A B : Type} (f : A -> result B) (l : list A)
  : result (list B) :=
  match l with
  | [] => Ok []
  | x :: l' =>
      match f x with
      | Ok y => match map_result f l' with
                | Ok ys => Ok (y :: ys)
                | Raise e => Raise e
                end
      | Raise e => Raise e
      end
  end.

End Py.

Export Py.

Notation "x <- c ;; k" := (Py.bind c (fun x => k))
  (at level 61, c at next level, right associativity).
Notation "c ;;; k" := (Py.bind c (fun _ => k))
  (at level 61, right associativity).

(* ================================================================== *)
(** * NumPy: the array primitives the class consumes *)
(* ================================================================== *)

Module Np.

(** An array is its shape together with the element found at each
    multi-index.  Slicing and axis moves are views in NumPy: they only remap
    indices, which is composition here.  Elements outside the shape are
    never looked at by the properties below. *)
Record ndarray (T : Type) : Type := mk_nd {
  shape : list nat;
  get : list nat -> T
}.

Arguments mk_nd {T} shape get.
Arguments shape {T} _.
Arguments get {T} _ _.

Section Generic.

Context {T : Type}.

Definition ndim (a : ndarray T) : nat := length (shape a).

(** [a.shape[k]] *)
Definition shape_at (a : ndarray T) (k : nat) : result nat :=
  match nth_error (shape a) k with
  | Some n => Ok n
  | None => Raise IndexError
  end.

(** A multi-index addresses an element when it has one coordinate per axis,
    each below the axis length. *)
Definition in_range (shp idx : list nat) : Prop := Forall2 lt idx shp.

(** Equality of arrays: same shape, same element at every multi-index. *)
Definition arr_eq (a b : ndarray T) : Prop :=
  shape a = shape b /\
  forall idx, in_range (shape a) idx -> get a idx = get b idx.

(** All multi-indices of a shape, in row-major order, and the elements of an
    array in that order ([a.ravel()]). *)
Fixpoint indices (shp : list nat) : list (list nat) :=
  match shp with
  | [] => [[]]
  | n :: rest => flat_map (fun i => map (cons i) (indices rest)) (seq 0 n)
  end.

Definition flat (a : ndarray T) : list T := map (get a) (indices (shape a)).

Fixpoint insert_at {A : Type} (k : nat) (x : A) (l : list A) : list A :=
  match k, l with
  | O, _ => x :: l
  | S k', y :: l' => y :: insert_at k' x l'
  | S _, [] => [x]
  end.

Fixpoint remove_at {A : Type} (k : nat) (l : list A) : list A :=
  match k, l with
  | _, [] => []
  | O, _ :: l' => l'
  | S k', y :: l' => y :: remove_at k' l'
  end.

Fixpoint position (x : nat) (l : list nat) : nat :=
  match l with
  | [] => O
  | y :: l' => if Nat.eqb x y then O else S (position x l')
  end.

(** ** Basic indexing: [a[s1, s2, ...]] with integers and slices

    The selectors are consumed axis by axis.  An integer fixes the
    coordinate and removes the axis; a slice keeps the axis with the number
    of selected positions.  The plan is the new shape and the map from a
    new multi-index to the old one. *)
Fixpoint getitem_plan (sels : list selector) (shp : list nat)
  : result (list nat * (list nat -> list nat)) :=
  match sels, shp with
  | [], _ => Ok (shp, fun idx => idx)
  | _ :: _, [] => Raise IndexError
  | Index i :: sels', n :: shp' =>
      k <- normalize_index n i ;;
      p <- getitem_plan sels' shp' ;;
      Ok (fst p, fun idx => k :: snd p idx)
  | Slice a b c :: sels', n :: shp' =>
      r <- slice_indices n a b c ;;
      p <- getitem_plan sels' shp' ;;
      let '(lo, st, count) := r in
      Ok (count :: fst p,
          fun idx => Z.to_nat (lo + Z.of_nat (hd O idx) * st) :: snd p (tl idx))
  end.

Definition getitem (a : ndarray T) (sels : list selector) : result (ndarray T) :=
  p <- getitem_plan sels (shape a) ;;
  Ok (mk_nd (fst p) (fun idx => get a (snd p idx))).

(** [a[np.newaxis]] *)
Definition newaxis (a : ndarray T) : ndarray T :=
  mk_nd (1 :: shape a) (fun idx => get a (tl idx)).

(** [a.reshape] to the shape of [a] followed by 1: a trailing axis of
    length one. *)
Definition reshape_append_one (a : ndarray T) : ndarray T :=
  mk_nd (shape a ++ [1]) (fun idx => get a (removelast idx)).

(** Axis arguments may count from the end. *)
Definition normalize_axis (nd : nat) (axis : Z) : result nat :=
  if ((- Z.of_nat nd <=? axis) && (axis <? Z.of_nat nd))%Z
  then Ok (Z.to_nat (if (axis <? 0)%Z then axis + Z.of_nat nd else axis))
  else Raise AxisError.

(** [np.transpose(a, axes)]: axis [j] of the result is axis [axes[j]] of [a]. *)
Definition transpose (a : ndarray T) (axes : list nat) : ndarray T :=
  mk_nd (map (fun ax => nth ax (shape a) O) axes)
        (fun idx =>
           get a (map (fun ax => nth (position ax axes) idx O)
                      (seq 0 (ndim a)))).

(** [np.moveaxis(a, source, destination)]: the other axes keep their order. *)
Definition moveaxis (a : ndarray T) (source destination : Z)
  : result (ndarray T) :=
  s <- normalize_axis (ndim a) source ;;
  d <- normalize_axis (ndim a) destination ;;
  Ok (transpose a (insert_at d s (remove_at s (seq 0 (ndim a))))).

Section Arithmetic.

Variable zero : T.
Variable add : T -> T -> T.

(** [np.zeros(shape)] and [np.zeros_like(a)] *)
Definition zeros (shp : list nat) : ndarray T := mk_nd shp (fun _ => zero).

Definition zeros_like (a : ndarray T) : ndarray T := zeros (shape a).

(** [a + b].  The raw data hands over operands of one shape; NumPy's
    broadcasting of unequal shapes is not modelled, any unequal pair is
    refused the way an incompatible pair is. *)
Definition add_arrays (a b : ndarray T) : result (ndarray T) :=
  if list_eq_dec Nat.eq_dec (shape a) (shape b)
  then Ok (mk_nd (shape a) (fun idx => add (get a idx) (get b idx)))
  else Raise ValueError.

(** ** [np.add.reduce] on one lane

    NumPy adds a lane with its pairwise summation.  Fewer than 8 elements
    are added one after the other.  From 8 to 128 elements, eight running
    sums each take every eighth element of the full groups of eight; they
    are combined in pairs, and the elements left over are added one after
    the other.  A longer lane is split in two near its middle, at a
    multiple of 8, and the sums of the two parts are added.  (The sign of a
    zero result depends on the NumPy version; the model adds from [zero].) *)
Definition add_from (start : T) (l : list T) : T := fold_left add l start.

Fixpoint add_pointwise (r g : list T) : list T :=
  match r, g with
  | x :: r', y :: g' => add x y :: add_pointwise r' g'
  | _, _ => []
  end.

(** The loop over the full groups of eight after the first. *)
Fixpoint accumulate (groups : nat) (r l : list T) : list T * list T :=
  match groups with
  | O => (r, l)
  | S g => accumulate g (add_pointwise r (firstn 8 l)) (skipn 8 l)
  end.

Definition sum_block (l : list T) : T :=
  let '(r, rest) := accumulate (length l / 8 - 1) (firstn 8 l) (skipn 8 l) in
  match r with
  | [r0; r1; r2; r3; r4; r5; r6; r7] =>
      add_from (add (add (add r0 r1) (add r2 r3)) (add (add r4 r5) (add r6 r7)))
               rest
  | _ => add_from zero l
  end.

(** The recursion on the halves is bounded by [fuel]; the length of the
    lane is always enough. *)
Fixpoint pairwise_sum (fuel : nat) (l : list T) : T :=
  if length l <? 8 then add_from zero l
  else if length l <=? 128 then sum_block l
  else
    match fuel with
    | O => sum_block l
    | S fuel' =>
        let half := length l / 2 - (length l / 2) mod 8 in
        add (pairwise_sum fuel' (firstn half l))
            (pairwise_sum fuel' (skipn half l))
    end.

(** The reduction of one lane of an axis by addition. *)
Definition sum_lane (l : list T) : T := pairwise_sum (length l) l.

(** [np.sum(a, axis=axis)] *)
Definition sum (a : ndarray T) (axis : Z) : result (ndarray T) :=
  ax <- normalize_axis (ndim a) axis ;;
  Ok (mk_nd (remove_at ax (shape a))
            (fun idx =>
               sum_lane (map (fun j => get a (insert_at ax j idx))
                             (seq 0 (nth ax (shape a) O))))).

(** [np.pad(a, padding)] with the default constant zero: [padding] gives,
    per axis, how many zeros go before and after. *)
Fixpoint unpad (padding : list (nat * nat)) (shp idx : list nat)
  : option (list nat) :=
  match padding, shp, idx with
  | [], [], [] => Some []
  | (before, _) :: padding', n :: shp', i :: idx' =>
      if (before <=? i) && (i <? before + n)
      then option_map (cons (i - before)) (unpad padding' shp' idx')
      else None
  | _, _, _ => None
  end.

Definition pad (a : ndarray T) (padding : list (nat * nat))
  : result (ndarray T) :=
  if Nat.eqb (length padding) (ndim a)
  then Ok (mk_nd (map (fun '((before, after), n) => before + n + after)
                      (combine padding (shape a)))
                 (fun idx =>
                    match unpad padding (shape a) idx with
                    | Some old => get a old
                    | None => zero
                    end))
  else Raise ValueError.

End Arithmetic.

End Generic.

(** Array literals: a rank-4 array from nested lists, its shape read off the
    first entries. *)
Definition array4 {T : Type} (default : T) (l : list (list (list (list T))))
  : ndarray T :=
  mk_nd [length l; length (hd [] l); length (hd [] (hd [] l));
         length (hd [] (hd [] (hd [] l)))]
        (fun idx =>
           nth (nth 3 idx O)
               (nth (nth 2 idx O) (nth (nth 1 idx O) (nth (nth 0 idx O) l []) []) [])
               default).

(** ** Arrays of doubles *)

(** [for sub in a]: the sub-arrays along the first axis; a 0-d array cannot
    be iterated. *)
Definition iterate {T : Type} (a : ndarray T) : result (list (ndarray T)) :=
  match shape a with
  | [] => Raise TypeError
  | n :: rest =>
      Ok (map (fun i => mk_nd rest (fun idx => get a (i :: idx))) (seq 0 n))
  end.

(** [np.linalg.norm(a, axis=axis)]: per lane of the axis, the square root of
    the sum of the squares. *)
Definition norm (a : ndarray float) (axis : Z) : result (ndarray float) :=
  ax <- normalize_axis (ndim a) axis ;;
  Ok (mk_nd (remove_at ax (shape a))
            (fun idx =>
               PrimFloat.sqrt
                 (sum_lane 0%float PrimFloat.add
                    (map (fun j => let x := get a (insert_at ax j idx) in
                                   (x * x)%float)
                         (seq 0 (nth ax (shape a) O)))))).

(** [np.maximum] on two doubles: a NaN wins. *)
Definition maximum (x y : float) : float :=
  if (y <=? x)%float || PrimFloat.is_nan x then x else y.

(** [np.max(a)]: undefined, hence a [ValueError], on an array without
    elements. *)
Definition amax (a : ndarray float) : result float :=
  match flat a with
  | [] => Raise ValueError
  | x :: rest => Ok (fold_left maximum rest x)
  end.

(** Two doubles that hold the same number: they compare equal, as 0.0 and
    -0.0 do, or both are NaN ([np.array_equal] with [equal_nan]). *)
Definition same_number (x y : float) : bool :=
  (x =? y)%float || (PrimFloat.is_nan x && PrimFloat.is_nan y).

(** [c * a] for a scalar [c]. *)
Definition scale (c : float) (a : ndarray float) : ndarray float :=
  mk_nd (shape a) (fun idx => (c * get a idx)%float).

End Np.

Export Np.

(* ================================================================== *)
(** * The Magnetism class *)
(* ================================================================== *)

Module Magnetism.

(** The raw data the class reads ([raw.Magnetism], declared outside the
    sources given here): [spin_moments] has the axes (step, component, atom,
    orbital); [orbital_moments] has the same axes when VASP wrote it and is
    the explicit absent marker otherwise, which [is_none()] tests.  The
    [data_access] decorator only opens the raw data and is left out. *)
Record RawMagnetism (T : Type) : Type := mk_raw {
  spin_moments : ndarray T;
  orbital_moments : option (ndarray T)
}.

Arguments mk_raw {T} spin_moments orbital_moments.
Arguments spin_moments {T} _.
Arguments orbital_moments {T} _.

Definition steps_message (steps : selector) : string :=
  ("Error reading the magnetic moments. Please check if the steps `"
     ++ str_of_selector steps
     ++ "` are properly formatted and within the boundaries.")%string.

Definition selection_message (selection : string) : string :=
  ("The selection " ++ selection
     ++ " is incorrect. Please check if it is spelled correctly. Possible choices are total, spin, or orbital.")%string.

Definition no_orbital_message : string :=
  "There are no orbital moments in the VASP output. Please make sure that you run the calculation with LORBMOM = T and LSORBIT = T.".

Section Methods.

Context {T : Type}.
Variable zero : T.
Variable add : T -> T -> T.

(** The methods read [self._raw_data] and [self._steps]; both are explicit
    arguments here.  [self._steps] is what the caller put in brackets, the
    last step ([Index (-1)]) when nothing was selected.  The optional
    [orbital_moments] is matched on where the source asks
    [_has_orbital_moments] before reading it. *)
Variable raw : RawMagnetism T.
Variable steps : selector.

Definition _only_charge : result bool :=
  c <- shape_at (spin_moments raw) 1 ;; Ok (Nat.eqb c 1).

Definition _spin_polarized : result bool :=
  c <- shape_at (spin_moments raw) 1 ;; Ok (Nat.eqb c 2).

Definition _noncollinear : result bool :=
  c <- shape_at (spin_moments raw) 1 ;; Ok (Nat.eqb c 4).

Definition _has_orbital_moments : bool :=
  match orbital_moments raw with
  | Some _ => true
  | None => false
  end.

(** The probe [np.zeros(shape[0])[steps]] runs inside [try]; only an
    [IndexError] is translated, any other exception passes through. *)
Definition _raise_error_if_steps_out_of_bounds : result unit :=
  match (n <- shape_at (spin_moments raw) 0 ;;
         getitem (zeros zero [n]) [steps]) with
  | Ok _ => Ok tt
  | Raise IndexError => Raise (IncorrectUsage (steps_message steps))
  | Raise e => Raise e
  end.

Definition _raise_error_if_selection_not_available (selection : string)
  : result unit :=
  if negb (existsb (String.eqb selection) ["spin"; "orbital"; "total"]%string)
  then Raise (IncorrectUsage (selection_message selection))
  else if negb (String.eqb selection "orbital") || _has_orbital_moments
  then Ok tt
  else Raise (NoData no_orbital_message).

Definition _sum_over_orbitals (quantity : option (ndarray T)) (is_vector : bool)
  : result (option (ndarray T)) :=
  match quantity with
  | None => Ok None
  | Some q =>
      if is_vector
      then (r <- sum zero add q (-2) ;; Ok (Some r))
      else (r <- sum zero add q (-1) ;; Ok (Some r))
  end.

Definition charges : result (ndarray T) :=
  _raise_error_if_steps_out_of_bounds ;;;
  getitem (spin_moments raw) [steps; Index 0].

Definition _collinear_moments : result (ndarray T) :=
  getitem (spin_moments raw) [steps; Index 1].

Definition _noncollinear_moments (selection : string) : result (ndarray T) :=
  spin <- getitem (spin_moments raw) [steps; Slice (Some 1%Z) None None] ;;
  orbital <- match orbital_moments raw with
             | Some om => getitem om [steps; Slice (Some 1%Z) None None]
             | None => Ok (zeros_like zero spin)
             end ;;
  moments <- (if String.eqb selection "orbital" then Ok orbital
              else if String.eqb selection "spin" then Ok spin
              else add_arrays add spin orbital) ;;
  let direction_axis := if Nat.eqb (ndim moments) 4 then 1%Z else 0%Z in
  moveaxis moments direction_axis (-1).

Definition moments (selection : string) : result (option (ndarray T)) :=
  _raise_error_if_steps_out_of_bounds ;;;
  _raise_error_if_selection_not_available selection ;;;
  only_charge <- _only_charge ;;
  if only_charge then Ok None
  else
    spin_polarized <- _spin_polarized ;;
    if spin_polarized
    then (m <- _collinear_moments ;; Ok (Some m))
    else (m <- _noncollinear_moments selection ;; Ok (Some m)).

Definition total_charges : result (option (ndarray T)) :=
  c <- charges ;; _sum_over_orbitals (Some c) false.

Definition total_moments (selection : string) : result (option (ndarray T)) :=
  m <- moments selection ;;
  is_vector <- _noncollinear ;;
  _sum_over_orbitals m is_vector.

Definition _add_spin_and_orbital_moments
  : result (list (string * option (ndarray T))) :=
  match orbital_moments raw with
  | None => Ok []
  | Some om =>
      spin <- getitem (spin_moments raw) [steps; Slice (Some 1%Z) None None] ;;
      orbital <- getitem om [steps; Slice (Some 1%Z) None None] ;;
      let direction_axis := if Nat.eqb (ndim spin) 4 then 1%Z else 0%Z in
      s <- moveaxis spin direction_axis (-1) ;;
      o <- moveaxis orbital direction_axis (-1) ;;
      Ok [("spin_moments"%string, Some s); ("orbital_moments"%string, Some o)]
  end.

(** The dictionary keeps its keys in insertion order. *)
Definition to_dict : result (list (string * option (ndarray T))) :=
  c <- charges ;;
  m <- moments "total" ;;
  extra <- _add_spin_and_orbital_moments ;;
  Ok ([("charges"%string, Some c); ("moments"%string, m)] ++ extra).

(** [d[key]] on the result of [to_dict]. *)
Fixpoint lookup (key : string) (d : list (string * option (ndarray T)))
  : option (option (ndarray T)) :=
  match d with
  | [] => None
  | (k, v) :: d' => if String.eqb key k then Some v else lookup key d'
  end.

End Methods.

(** ** Display and report, on double-precision data *)

(** An arrow overlay ([view.IonArrow]) and the part of the viewer the class
    assigns to.  The scene itself comes from the structure's [plot]. *)
Record IonArrow : Type := mk_arrow {
  quantity : ndarray float;
  label : string;
  color : string;
  radius : float
}.

Record View (Scene : Type) : Type := mk_view {
  scene : Scene;
  ion_arrows : option (list IonArrow)
}.

Arguments mk_view {Scene} scene ion_arrows.
Arguments scene {Scene} _.
Arguments ion_arrows {Scene} _.

Definition length_moments : float := 1.5%float.

Definition magmom : string := "MAGMOM = ".

(** A blank, a backslash, a line feed and nine blanks. *)
Definition separator : string :=
  (" \" ++ String (ascii_of_nat 10) "         ")%string.

Section Display.

Variable raw : RawMagnetism float.
Variable steps : selector.

Definition _make_sure_moments_have_timestep_dimension
  (moments : option (ndarray float)) : option (ndarray float) :=
  match moments with
  | Some m => if negb (is_slice steps) then Some (newaxis m) else moments
  | None => moments
  end.

Definition _convert_moment_to_3d_vector (moments : option (ndarray float))
  : result (option (ndarray float)) :=
  match moments with
  | Some m =>
      if Nat.eqb (ndim m) 2
      then
        let no_new_moments := (0, 0) in
        let add_zero_for_xy_axis := (2, 0) in
        let padding := [no_new_moments; no_new_moments; add_zero_for_xy_axis] in
        p <- pad 0%float (reshape_append_one m) padding ;;
        Ok (Some p)
      else Ok moments
  | None => Ok moments
  end.

Definition _max_length_moments (moments : option (ndarray float))
  : result float :=
  match moments with
  | Some m => n <- norm m 2 ;; amax n
  | None => Ok 0%float
  end.

Definition _prepare_magnetic_moments_for_plotting (selection : string)
  : result (option (ndarray float)) :=
  moments <- total_moments 0%float PrimFloat.add raw steps selection ;;
  let moments := _make_sure_moments_have_timestep_dimension moments in
  moments <- _convert_moment_to_3d_vector moments ;;
  max_length_moments <- _max_length_moments moments ;;
  if (1e-15 <? max_length_moments)%float
  then
    let rescale_moments := (length_moments / max_length_moments)%float in
    match moments with
    | Some m => Ok (Some (scale rescale_moments m))
    | None => Raise TypeError
    end
  else Ok None.

(** [plot] is the outcome of [self._structure[self._steps].plot(supercell)],
    the call of the structure mixin that runs first: the viewer it
    returned, or the exception it raised, which leaves [to_view] at once.
    [blue] is [_config.VASP_COLORS["blue"]]. *)
Definition to_view {Scene : Type} (plot : result (View Scene)) (blue : string)
  (selection : string) : result (View Scene) :=
  viewer <- plot ;;
  moments <- _prepare_magnetic_moments_for_plotting selection ;;
  match moments with
  | Some m =>
      let arrows := mk_arrow m (selection ++ " moments")%string blue 0.2%float in
      Ok (mk_view (scene viewer) (Some [arrows]))
  | None => Ok viewer
  end.

(** The lambda of [__str__]: the elements of [vec] formatted and joined.
    A 0-d array cannot be iterated, and only the elements of a 1-d array
    are numbers that accept [".2f"]: the sub-arrays of a higher rank do
    not, unless there is none to format. *)
Definition moments_to_string (vec : ndarray float) : result string :=
  match shape vec with
  | [] => Raise TypeError
  | [_] => Ok (String.concat " " (map format_2f (flat vec)))
  | n :: _ => if Nat.eqb n 0 then Ok ""%string else Raise TypeError
  end.

Definition __str__ : result string :=
  moments_last_step <- total_moments 0%float PrimFloat.add raw steps "total" ;;
  match moments_last_step with
  | None => Ok "not spin polarized"%string
  | Some m =>
      if Nat.eqb (ndim m) 1
      then (line <- moments_to_string m ;; Ok (magmom ++ line)%string)
      else
        (vectors <- iterate m ;;
         lines <- map_result moments_to_string vectors ;;
         Ok (magmom ++ String.concat separator lines)%string)
  end.

End Display.

(** ** Vocabulary of the properties *)

(** The data model: [spin_moments] is a rank-4 array of [n] steps, [c]
    components, [a] atoms and [o] orbitals, and [orbital_moments] has the
    same shape when present. *)
Definition well_shaped {T : Type} (raw : RawMagnetism T) (n c a o : nat) : Prop :=
  shape (spin_moments raw) = [n; c; a; o] /\
  match orbital_moments raw with
  | Some om => shape om = [n; c; a; o]
  | None => True
  end.

(** What a selector picks on an axis of length [n]: one position, or
    [count] positions [lo + j * st]. *)
Inductive resolved : Type :=
| OneStep (k : nat)
| ManySteps (lo st : Z) (count : nat).

Definition resolve (n : nat) (steps : selector) : result resolved :=
  match steps with
  | Index i => k <- normalize_index n i ;; Ok (OneStep k)
  | Slice a b c =>
      r <- slice_indices n a b c ;;
      let '(lo, st, count) := r in Ok (ManySteps lo st count)
  end.

(** The step axis of a result (absent after an integer index), the leading
    coordinates of an element of the [j]-th selected step, and the raw step
    it comes from. *)
Definition lead_shape (r : resolved) : list nat :=
  match r with
  | OneStep _ => []
  | ManySteps _ _ count => [count]
  end.

Definition lead (r : resolved) (j : nat) : list nat :=
  match r with
  | OneStep _ => []
  | ManySteps _ _ _ => [j]
  end.

Definition step_of (r : resolved) (j : nat) : nat :=
  match r with
  | OneStep k => k
  | ManySteps lo st _ => Z.to_nat (lo + Z.of_nat j * st)
  end.

(** How many steps are selected. *)
Definition count_of (r : resolved) : nat :=
  match r with
  | OneStep _ => 1
  | ManySteps _ _ count => count
  end.

(** The selectors NumPy accepts on an axis of length [n]: an integer in
    [-n, n), or any slice whose step is not zero. *)
Definition index_in_bounds (n : nat) (i : Z) : bool :=
  ((- Z.of_nat n <=? i) && (i <? Z.of_nat n))%Z.

Definition accepted (n : nat) (steps : selector) : Prop :=
  match steps with
  | Index i => index_in_bounds n i = true
  | Slice _ _ st => st <> Some 0%Z
  end.

(** The specification's reading of a selector that lies within the bounds
    of an axis of length [n]: an integer in [-n, n), or a slice whose given
    start and stop are positions of the axis (counted from either end). *)
Definition bound_within (n : nat) (b : option Z) : bool :=
  match b with
  | Some z => ((- Z.of_nat n <=? z) && (z <=? Z.of_nat n))%Z
  | None => true
  end.

Definition lies_within_bounds (n : nat) (steps : selector) : bool :=
  match steps with
  | Index i => index_in_bounds n i
  | Slice a b _ => bound_within n a && bound_within n b
  end.

Definition valid_selection (selection : string) : Prop :=
  In selection ["total"; "spin"; "orbital"]%string.

(** How the noncollinear branch combines the two contributions. *)
Definition combine {T : Type} (add : T -> T -> T) (selection : string)
  (spin orbital : T) : T :=
  if String.eqb selection "orbital" then orbital
  else if String.eqb selection "spin" then spin
  else add spin orbital.

End Magnetism.

Export Magnetism.

(* ================================================================== *)
(** * Sample data *)
(* ================================================================== *)

Module Samples.

Local Open Scope Z_scope.

(** One step, charge only, two atoms with three orbitals each. *)
Definition charge_only : RawMagnetism Z :=
  mk_raw (array4 0 [[ [[1; 2; 3]; [4; 5; 6]] ]]) None.

(** Two steps, collinear, two atoms with two orbitals each; no orbital
    moments, as in every collinear calculation. *)
Definition collinear : RawMagnetism Z :=
  mk_raw (array4 0 [ [ [[1; 2]; [3; 4]]; [[5; 6]; [7; 8]] ];
                     [ [[1; 1]; [2; 2]]; [[3; 3]; [4; 4]] ] ]) None.

Definition noncollinear_spin : ndarray Z :=
  array4 0 [ [ [[1; 2]; [3; 4]]; [[10; 20]; [30; 40]];
               [[11; 21]; [31; 41]]; [[12; 22]; [32; 42]] ];
             [ [[5; 6]; [7; 8]]; [[50; 60]; [70; 80]];
               [[51; 61]; [71; 81]]; [[52; 62]; [72; 82]] ] ].

Definition noncollinear_orbital : ndarray Z :=
  array4 0 [ [ [[0; 0]; [0; 0]]; [[1; 2]; [3; 4]];
               [[5; 6]; [7; 8]]; [[9; 10]; [11; 12]] ];
             [ [[0; 0]; [0; 0]]; [[-1; -2]; [-3; -4]];
               [[-5; -6]; [-7; -8]]; [[-9; -10]; [-11; -12]] ] ].

(** Two steps, noncollinear, without and with orbital moments. *)
Definition noncollinear : RawMagnetism Z := mk_raw noncollinear_spin None.

Definition noncollinear_with_orbital : RawMagnetism Z :=
  mk_raw noncollinear_spin (Some noncollinear_orbital).

Local Close Scope Z_scope.
Local Open Scope float_scope.

(** One collinear step of three atoms with one orbital each, whose total
    moments are 1.234, -0.005 and 0.5. *)
Definition magmom_example : RawMagnetism float :=
  mk_raw (array4 0 [[ [[3.0]; [2.0]; [1.0]]; [[1.234]; [-0.005]; [0.5]] ]]) None.


(** One charge-only step. *)
Definition unpolarized : RawMagnetism float :=
  mk_raw (array4 0 [[ [[3.0]; [2.0]] ]]) None.

(** Two collinear steps of two atoms with one orbital each. *)
Definition two_steps : RawMagnetism float :=
  mk_raw (array4 0 [ [ [[3.0]; [2.0]]; [[1.5]; [-0.25]] ];
                     [ [[3.0]; [2.0]]; [[2.0]; [0.125]] ] ]) None.

(** Two collinear steps of one atom with two orbitals, the moments all
    zero. *)
Definition without_moments : RawMagnetism float :=
  mk_raw (array4 0 [ [ [[3.0; 1.0]]; [[0.0; 0.0]] ];
                     [ [[3.0; 1.0]]; [[0.0; 0.0]] ] ]) None.

(** Two noncollinear steps of two atoms with one orbital each. *)
Definition canted : RawMagnetism float :=
  mk_raw (array4 0 [ [ [[3.0]; [2.0]]; [[1.0]; [0.0]]; [[0.0]; [0.5]]; [[-1.0]; [0.25]] ];
                     [ [[3.0]; [2.0]]; [[0.5]; [0.0]]; [[0.5]; [0.0]]; [[0.0]; [1.0]] ] ])
         None.

(** One noncollinear step of two atoms with one orbital each; the x
    component of the second atom is the negative zero. *)
Definition signed_zero : RawMagnetism float :=
  mk_raw (array4 0 [ [ [[3.0]; [2.0]]; [[1.0]; [neg_zero]]; [[0.0]; [0.5]];
                       [[-1.0]; [0.25]] ] ])
         None.

End Samples.

(* ================================================================== *)
(** * Properties *)
(* ================================================================== *)

(** ** Step selection *)

Lemma resolve_inv (n : nat) (steps : selector) (r : resolved) :
  resolve n steps = Ok r ->
  (exists i k, steps = Index i /\ normalize_index n i = Ok k /\ r = OneStep k) \/
  (exists b e st lo s count,
      steps = Slice b e st /\ slice_indices n b e st = Ok (lo, s, count) /\
      r = ManySteps lo s count).
Proof.
  destruct steps as [i | b e st]; cbn.
  - destruct (normalize_index n i) as [k |] eqn:E; [| discriminate].
    intros H; inversion H; subst. left. now exists i, k.
  - destruct (slice_indices n b e st) as [[[lo s] count] |] eqn:E; [| discriminate].
    intros H; inversion H; subst. right. now exists b, e, st, lo, s, count.
Qed.

Lemma normalize_index_in_bounds (n : nat) (i : Z) :
  normalize_index n i =
  if index_in_bounds n i
  then Ok (Z.to_nat (if (i <? 0)%Z then i + Z.of_nat n else i))
  else Raise IndexError.
Proof. reflexivity. Qed.

(** An accepted integer index resolves to a position of the axis. *)
Lemma normalize_index_lt (n : nat) (i : Z) (k : nat) :
  normalize_index n i = Ok k -> k < n.
Proof.
  unfold normalize_index.
  destruct ((- Z.of_nat n <=? i)%Z) eqn:E1; [| discriminate].
  destruct ((i <? Z.of_nat n)%Z) eqn:E2; [| discriminate].
  cbn. intros H; inversion H; subst; clear H.
  apply Z.leb_le in E1. apply Z.ltb_lt in E2.
  destruct (i <? 0)%Z eqn:E3.
  - apply Z.ltb_lt in E3. lia.
  - apply Z.ltb_ge in E3. lia.
Qed.

(** A slice is refused only for a zero step. *)
Lemma slice_indices_ok (n : nat) (b e st : option Z) :
  st <> Some 0%Z -> exists lo s count, slice_indices n b e st = Ok (lo, s, count).
Proof.
  intros Hst. unfold slice_indices.
  destruct st as [z |].
  - destruct (z =? 0)%Z eqn:E.
    + apply Z.eqb_eq in E. subst. now elim Hst.
    + eauto.
  - cbn. eauto.
Qed.

Lemma slice_indices_zero_step (n : nat) (b e : option Z) :
  slice_indices n b e (Some 0%Z) = Raise ValueError.
Proof. reflexivity. Qed.

Lemma accepted_resolve (n : nat) (steps : selector) :
  accepted n steps <-> exists r, resolve n steps = Ok r.
Proof.
  destruct steps as [i | b e st]; cbn; split.
  - intros H. rewrite normalize_index_in_bounds, H. cbn. eauto.
  - intros [r H]. rewrite normalize_index_in_bounds in H.
    destruct (index_in_bounds n i); [reflexivity | discriminate].
  - intros H. destruct (slice_indices_ok n b e st H) as (lo & s & count & E).
    rewrite E. cbn. eauto.
  - intros [r H] ->. rewrite slice_indices_zero_step in H. discriminate.
Qed.

(** The positions a slice selects are positions of the axis. *)
Section SlicePositions.

Local Open Scope Z_scope.

Lemma adjust_bound_range (len st i : Z) :
  (0 <= len ->
   (0 < st -> 0 <= adjust_bound len st i <= len) /\
   (st < 0 -> -1 <= adjust_bound len st i <= len - 1))%Z.
Proof.
  intros Hlen. unfold adjust_bound.
  destruct (i <? 0) eqn:E1; [apply Z.ltb_lt in E1 | apply Z.ltb_ge in E1].
  - destruct (i + len <? 0) eqn:E2; [apply Z.ltb_lt in E2 | apply Z.ltb_ge in E2];
      destruct (st <? 0) eqn:E3; [apply Z.ltb_lt in E3 | apply Z.ltb_ge in E3 | apply Z.ltb_lt in E3 | apply Z.ltb_ge in E3]; lia.
  - destruct (len <=? i) eqn:E2; [apply Z.leb_le in E2 | apply Z.leb_gt in E2];
      destruct (st <? 0) eqn:E3; [apply Z.ltb_lt in E3 | apply Z.ltb_ge in E3 | apply Z.ltb_lt in E3 | apply Z.ltb_ge in E3]; lia.
Qed.

Lemma slice_positions_in_axis (n : nat) (b e st : option Z) (lo s : Z) (count : nat) :
  slice_indices n b e st = Ok (lo, s, count) ->
  forall j, (j < count)%nat -> (0 <= lo + Z.of_nat j * s < Z.of_nat n)%Z.
Proof.
  unfold slice_indices.
  set (len := Z.of_nat n). set (stp := match st with Some z => z | None => 1 end).
  assert (Hlen : 0 <= len) by (unfold len; lia).
  destruct (stp =? 0) eqn:E0; [discriminate | apply Z.eqb_neq in E0].
  set (lo' := match b with Some a => adjust_bound len stp a | None => if stp <? 0 then len - 1 else 0 end).
  set (hi' := match e with Some a => adjust_bound len stp a | None => if stp <? 0 then -1 else len end).
  intros H. inversion H as [[Hlo Hs Hcount]]. clear H.
  intros j Hj.
  destruct (stp <? 0) eqn:E1; [apply Z.ltb_lt in E1 | apply Z.ltb_ge in E1].
  - assert (Hlo' : -1 <= lo' <= len - 1).
    { unfold lo'. destruct b; [apply adjust_bound_range; lia |].
      replace (stp <? 0) with true by (symmetry; apply Z.ltb_lt; lia). lia. }
    assert (Hhi' : -1 <= hi' <= len - 1).
    { unfold hi'. destruct e; [apply adjust_bound_range; lia |].
      replace (stp <? 0) with true by (symmetry; apply Z.ltb_lt; lia). lia. }
    destruct (hi' <? lo') eqn:E2; [apply Z.ltb_lt in E2 | subst count; cbn in Hj; lia].
    assert (Hq : 0 <= (lo' - hi' - 1) / (- stp)) by (apply Z.div_pos; lia).
    assert (Hm : (- stp) * ((lo' - hi' - 1) / (- stp)) <= lo' - hi' - 1)
      by (apply Z.mul_div_le; lia).
    assert (Hjz : Z.of_nat j <= (lo' - hi' - 1) / (- stp)) by lia.
    nia.
  - assert (Hpos : 0 < stp) by lia.
    assert (Hlo' : 0 <= lo' <= len).
    { unfold lo'. destruct b; [apply adjust_bound_range; lia |].
      replace (stp <? 0) with false by (symmetry; apply Z.ltb_ge; lia). lia. }
    assert (Hhi' : 0 <= hi' <= len).
    { unfold hi'. destruct e; [apply adjust_bound_range; lia |].
      replace (stp <? 0) with false by (symmetry; apply Z.ltb_ge; lia). lia. }
    destruct (lo' <? hi') eqn:E2; [apply Z.ltb_lt in E2 | subst count; cbn in Hj; lia].
    assert (Hq : 0 <= (hi' - lo' - 1) / stp) by (apply Z.div_pos; lia).
    assert (Hm : stp * ((hi' - lo' - 1) / stp) <= hi' - lo' - 1)
      by (apply Z.mul_div_le; lia).
    assert (Hjz : Z.of_nat j <= (hi' - lo' - 1) / stp) by lia.
    nia.
Qed.

End SlicePositions.

(** Every selected step is a step of the raw data. *)
Lemma selected_steps_in_axis (n : nat) (steps : selector) (r : resolved) :
  resolve n steps = Ok r ->
  forall j, j < count_of r -> step_of r j < n.
Proof.
  intros Hr j Hj.
  destruct (resolve_inv n steps r Hr)
    as [(i & k & -> & E & ->) | (b & e & st & lo & s & count & -> & E & ->)]; cbn in *.
  - exact (normalize_index_lt n i k E).
  - pose proof (slice_positions_in_axis n b e st lo s count E j Hj). lia.
Qed.

Section Checks.

Context {T : Type}.
Variable zero : T.

(** What the bounds check answers, by the kind of selector. *)
Lemma steps_check_verdict (raw : RawMagnetism T) (steps : selector)
  (n : nat) (rest : list nat) :
  shape (spin_moments raw) = n :: rest ->
  _raise_error_if_steps_out_of_bounds zero raw steps =
  match resolve n steps with
  | Ok _ => Ok tt
  | Raise IndexError => Raise (IncorrectUsage (steps_message steps))
  | Raise e => Raise e
  end.
Proof.
  intros Hs. unfold _raise_error_if_steps_out_of_bounds, shape_at, getitem.
  rewrite Hs. cbn.
  destruct steps as [i | b e st]; cbn.
  - destruct (normalize_index n i); reflexivity.
  - destruct (slice_indices n b e st) as [[[lo s] count] |]; reflexivity.
Qed.

Lemma resolve_raises (n : nat) (steps : selector) (e : exn) :
  resolve n steps = Raise e ->
  (exists i, steps = Index i /\ index_in_bounds n i = false /\ e = IndexError) \/
  (exists b s, steps = Slice b s (Some 0%Z) /\ e = ValueError).
Proof.
  destruct steps as [i | b s st]; cbn.
  - rewrite normalize_index_in_bounds.
    destruct (index_in_bounds n i) eqn:E; cbn; [discriminate |].
    intros H; inversion H; subst. left. eauto.
  - destruct st as [z |].
    + destruct (Z.eq_dec z 0) as [-> | Hz].
      * rewrite slice_indices_zero_step. cbn. intros H; inversion H; subst.
        right. eauto.
      * destruct (slice_indices_ok n b s (Some z)) as (lo & s' & count & E).
        { congruence. }
        rewrite E. discriminate.
    + destruct (slice_indices_ok n b s None) as (lo & s' & count & E).
      { discriminate. }
      rewrite E. discriminate.
Qed.

Lemma steps_check_passes (raw : RawMagnetism T) (steps : selector)
  (n c a o : nat) :
  well_shaped raw n c a o ->
  (_raise_error_if_steps_out_of_bounds zero raw steps = Ok tt <->
   exists r, resolve n steps = Ok r).
Proof.
  intros [Hs _]. rewrite (steps_check_verdict raw steps n _ Hs). split.
  - destruct (resolve n steps) as [r | e] eqn:E; [eauto |].
    destruct e; discriminate.
  - intros [r ->]. reflexivity.
Qed.

End Checks.

(** ** Charge-only and collinear data *)

Section Regimes.

Context {T : Type}.
Variable zero : T.
Variable add : T -> T -> T.

(** C5 (amended).  For charge-only data (one component) and every step
    selection that passes the bounds check, [moments] returns the absent
    value for the selections "total" and "spin", and for "orbital" when
    orbital moments are present; when they are absent, the availability check
    that runs before the regime is looked at makes [moments("orbital")] raise
    NoData. *)
Theorem charge_only_moments_absent (raw : RawMagnetism T) (steps : selector)
  (n a o : nat) :
  well_shaped raw n 1 a o ->
  _raise_error_if_steps_out_of_bounds zero raw steps = Ok tt ->
  moments zero add raw steps "total" = Ok None /\
  moments zero add raw steps "spin" = Ok None /\
  moments zero add raw steps "orbital" =
    match orbital_moments raw with
    | Some _ => Ok None
    | None => Raise (NoData no_orbital_message)
    end.
Proof.
  intros [Hs _] Hcheck. unfold moments. rewrite Hcheck. cbn.
  unfold _raise_error_if_selection_not_available, _has_orbital_moments,
    _only_charge, shape_at.
  rewrite Hs. cbn.
  destruct (orbital_moments raw); auto.
Qed.

(** The component-1 slice of a well-shaped collinear array, element by
    element. *)
Lemma collinear_slice (raw : RawMagnetism T) (steps : selector)
  (n c a o : nat) (r : resolved) :
  shape (spin_moments raw) = [n; S (S c); a; o] ->
  resolve n steps = Ok r ->
  exists m,
    _collinear_moments raw steps = Ok m /\
    shape m = lead_shape r ++ [a; o] /\
    forall j x y,
      get m (lead r j ++ [x; y]) = get (spin_moments raw) [step_of r j; 1; x; y].
Proof.
  intros Hs Hr. unfold _collinear_moments, getitem. rewrite Hs.
  assert (Hone : normalize_index (S (S c)) 1 = Ok 1).
  { rewrite normalize_index_in_bounds. unfold index_in_bounds.
    replace ((- Z.of_nat (S (S c)) <=? 1)%Z) with true by (symmetry; apply Z.leb_le; lia).
    replace ((1 <? Z.of_nat (S (S c)))%Z) with true by (symmetry; apply Z.ltb_lt; lia).
    reflexivity. }
  destruct (resolve_inv n steps r Hr)
    as [(i & k & -> & E & ->) | (b & e & st & lo & s & count & -> & E & ->)];
    cbn [getitem_plan]; rewrite E, Hone; cbn;
    (eexists; split; [reflexivity | split; [reflexivity | intros; reflexivity]]).
Qed.

(** C6 (amended).  For collinear data (two components) and every step
    selection that passes the bounds check, [moments("total")] and
    [moments("spin")] return the same array, the component-1 slice of
    [spin_moments] for the selected steps; [moments("orbital")] returns that
    array too when orbital moments are present, and raises NoData when they
    are absent. *)
Theorem collinear_moments_ignore_selection (raw : RawMagnetism T)
  (steps : selector) (n a o : nat) :
  well_shaped raw n 2 a o ->
  _raise_error_if_steps_out_of_bounds zero raw steps = Ok tt ->
  exists r m,
    resolve n steps = Ok r /\
    getitem (spin_moments raw) [steps; Index 1] = Ok m /\
    shape m = lead_shape r ++ [a; o] /\
    (forall j x y,
        get m (lead r j ++ [x; y]) = get (spin_moments raw) [step_of r j; 1; x; y]) /\
    moments zero add raw steps "total" = Ok (Some m) /\
    moments zero add raw steps "spin" = Ok (Some m) /\
    moments zero add raw steps "orbital" =
      match orbital_moments raw with
      | Some _ => Ok (Some m)
      | None => Raise (NoData no_orbital_message)
      end.
Proof.
  intros Hw Hcheck.
  destruct (proj1 (steps_check_passes zero raw steps n 2 a o Hw) Hcheck) as [r Hr].
  destruct Hw as [Hs _].
  destruct (collinear_slice raw steps n 0 a o r Hs Hr) as (m & Hm & Hshape & Hget).
  exists r, m. repeat split; try assumption.
  all: unfold moments; rewrite Hcheck; cbn;
    unfold _raise_error_if_selection_not_available, _has_orbital_moments,
      _only_charge, _spin_polarized, shape_at;
    rewrite Hs; cbn.
  1, 2: rewrite Hm; reflexivity.
  destruct (orbital_moments raw); [rewrite Hm |]; reflexivity.
Qed.

End Regimes.

Lemma charge_only_moments_absent_witness :
  moments 0%Z Z.add Samples.charge_only (Index (-1)) "total" = Ok None /\
  moments 0%Z Z.add Samples.charge_only (Index (-1)) "spin" = Ok None /\
  moments 0%Z Z.add Samples.charge_only (Index (-1)) "orbital" =
    Raise (NoData no_orbital_message).
Proof.
  apply (charge_only_moments_absent 0%Z Z.add Samples.charge_only (Index (-1)) 1 2 3).
  - split; reflexivity.
  - reflexivity.
Defined.

(** C5, as stated, fails on charge-only data without orbital moments: the
    "orbital" selection raises NoData instead of returning the absent
    value. *)
Lemma charge_only_orbital_selection_raises :
  well_shaped Samples.charge_only 1 1 2 3 /\
  accepted 1 (Index (-1)) /\
  ~ (forall selection, valid_selection selection ->
       moments 0%Z Z.add Samples.charge_only (Index (-1)) selection = Ok None).
Proof.
  split; [split; reflexivity |]. split; [reflexivity |].
  intros H. specialize (H "orbital"%string).
  assert (Hin : valid_selection "orbital") by (unfold valid_selection; cbn; auto).
  specialize (H Hin). vm_compute in H. discriminate.
Qed.

Lemma collinear_moments_ignore_selection_witness :
  exists r m,
    resolve 2 (Slice None None None) = Ok r /\
    getitem (spin_moments Samples.collinear) [Slice None None None; Index 1] = Ok m /\
    shape m = lead_shape r ++ [2; 2] /\
    (forall j x y,
        get m (lead r j ++ [x; y])
        = get (spin_moments Samples.collinear) [step_of r j; 1; x; y]) /\
    moments 0%Z Z.add Samples.collinear (Slice None None None) "total" = Ok (Some m) /\
    moments 0%Z Z.add Samples.collinear (Slice None None None) "spin" = Ok (Some m) /\
    moments 0%Z Z.add Samples.collinear (Slice None None None) "orbital" =
      Raise (NoData no_orbital_message).
Proof.
  apply (collinear_moments_ignore_selection 0%Z Z.add Samples.collinear
           (Slice None None None) 2 2 2).
  - split; reflexivity.
  - reflexivity.
Defined.

(** C6, as stated, fails on collinear data without orbital moments: the
    "orbital" selection does not return the array the other two return. *)
Lemma collinear_orbital_selection_raises :
  well_shaped Samples.collinear 2 2 2 2 /\
  accepted 2 (Index (-1)) /\
  ~ (exists m,
       moments 0%Z Z.add Samples.collinear (Index (-1)) "total" = Ok (Some m) /\
       moments 0%Z Z.add Samples.collinear (Index (-1)) "orbital" = Ok (Some m)).
Proof.
  split; [split; reflexivity |]. split; [reflexivity |].
  intros (m & _ & H). vm_compute in H. discriminate.
Qed.

(** ** Noncollinear data *)

Lemma tail_position (d : nat) : Z.to_nat (1 + Z.of_nat d * 1) = S d.
Proof. lia. Qed.

Lemma in_range_lead (r : resolved) (ts idx : list nat) :
  in_range (lead_shape r ++ ts) idx ->
  exists j rest, idx = lead r j ++ rest /\ in_range ts rest.
Proof.
  unfold in_range. destruct r as [k | lo st count]; cbn; intros H.
  - exists 0, idx. auto.
  - inversion H as [| j ? rest ? _ Hrest]; subst. exists j, rest. auto.
Qed.

Lemma in_range_three (a o c : nat) (idx : list nat) :
  in_range [a; o; c] idx -> exists x y d, idx = [x; y; d].
Proof.
  unfold in_range. intros H.
  inversion H as [| x ? r1 ? _ H1]; subst.
  inversion H1 as [| y ? r2 ? _ H2]; subst.
  inversion H2 as [| d ? r3 ? _ H3]; subst.
  inversion H3; subst. now exists x, y, d.
Qed.

Section Noncollinear.

Context {T : Type}.
Variable zero : T.
Variable add : T -> T -> T.

(** [arr[steps, 1:]] on an array of four components: the three directions,
    still in front of the atoms and orbitals. *)
Lemma directions_slice (arr : ndarray T) (steps : selector) (n a o : nat)
  (r : resolved) :
  shape arr = [n; 4; a; o] ->
  resolve n steps = Ok r ->
  exists part,
    getitem arr [steps; Slice (Some 1%Z) None None] = Ok part /\
    shape part = lead_shape r ++ [3; a; o] /\
    forall j d x y,
      get part (lead r j ++ [d; x; y]) = get arr [step_of r j; S d; x; y].
Proof.
  intros Hs Hr. unfold getitem. rewrite Hs.
  destruct (resolve_inv n steps r Hr)
    as [(i & k & -> & E & ->) | (b & e & st & lo & s & count & -> & E & ->)];
    cbn [getitem_plan]; rewrite E;
    change (slice_indices 4 (Some 1%Z) None None) with (Ok (1%Z, 1%Z, 3));
    cbn -[Z.add Z.mul Z.of_nat Z.to_nat];
    (eexists; split; [reflexivity | split; [reflexivity |]]);
    intros j d x y; cbn -[Z.add Z.mul Z.of_nat Z.to_nat];
    rewrite tail_position; reflexivity.
Qed.

(** The rank-sensitive relocation: from position 1 when the step axis is
    there (four axes), from position 0 when it is not (three axes). *)
Lemma relocate_direction (part : ndarray T) (r : resolved) (a o : nat) :
  shape part = lead_shape r ++ [3; a; o] ->
  exists m,
    moveaxis part (if Nat.eqb (ndim part) 4 then 1%Z else 0%Z) (-1) = Ok m /\
    m = transpose part (match r with
                        | OneStep _ => [1; 2; 0]
                        | ManySteps _ _ _ => [0; 2; 3; 1]
                        end) /\
    shape m = lead_shape r ++ [a; o; 3] /\
    forall j x y d,
      get m (lead r j ++ [x; y; d]) = get part (lead r j ++ [d; x; y]).
Proof.
  intros Hs. unfold moveaxis, ndim. rewrite Hs.
  destruct r as [k | lo st count]; cbn;
    (eexists; split; [reflexivity | split; [reflexivity |]]);
    unfold transpose, ndim; rewrite Hs; cbn; split; reflexivity.
Qed.

(** What [_noncollinear_moments] returns on well-shaped data: the direction
    is the last axis, and each element combines the spin and the orbital
    entry of its step, direction, atom and orbital. *)
Lemma noncollinear_moments_spec (raw : RawMagnetism T) (steps : selector)
  (n a o : nat) (r : resolved) (selection : string) :
  well_shaped raw n 4 a o ->
  resolve n steps = Ok r ->
  exists m,
    _noncollinear_moments zero add raw steps selection = Ok m /\
    shape m = lead_shape r ++ [a; o; 3] /\
    forall j x y d,
      get m (lead r j ++ [x; y; d]) =
      combine add selection
        (get (spin_moments raw) [step_of r j; S d; x; y])
        (match orbital_moments raw with
         | Some om => get om [step_of r j; S d; x; y]
         | None => zero
         end).
Proof.
  intros [Hs Ho] Hr. unfold _noncollinear_moments.
  destruct (directions_slice (spin_moments raw) steps n a o r Hs Hr)
    as (spin & Hspin & Hspin_shape & Hspin_get).
  rewrite Hspin. cbn [bind].
  assert (Horb : exists orbital,
             match orbital_moments raw with
             | Some om => getitem om [steps; Slice (Some 1%Z) None None]
             | None => Ok (zeros_like zero spin)
             end = Ok orbital /\
             shape orbital = lead_shape r ++ [3; a; o] /\
             forall j d x y,
               get orbital (lead r j ++ [d; x; y]) =
               match orbital_moments raw with
               | Some om => get om [step_of r j; S d; x; y]
               | None => zero
               end).
  { destruct (orbital_moments raw) as [om |].
    - exact (directions_slice om steps n a o r Ho Hr).
    - eexists. split; [reflexivity |]. split; [exact Hspin_shape | reflexivity]. }
  destruct Horb as (orbital & -> & Horb_shape & Horb_get). cbn [bind].
  assert (Hpre : exists pre,
             (if String.eqb selection "orbital" then Ok orbital
              else if String.eqb selection "spin" then Ok spin
              else add_arrays add spin orbital) = Ok pre /\
             shape pre = lead_shape r ++ [3; a; o] /\
             forall j d x y,
               get pre (lead r j ++ [d; x; y]) =
               combine add selection (get spin (lead r j ++ [d; x; y]))
                 (get orbital (lead r j ++ [d; x; y]))).
  { unfold combine, add_arrays.
    destruct (String.eqb selection "orbital"); [eauto |].
    destruct (String.eqb selection "spin"); [eauto |].
    destruct (list_eq_dec Nat.eq_dec (shape spin) (shape orbital)) as [_ | Hne].
    - eexists. split; [reflexivity |]. split; [exact Hspin_shape | reflexivity].
    - elim Hne. congruence. }
  destruct Hpre as (pre & -> & Hpre_shape & Hpre_get). cbn [bind].
  destruct (relocate_direction pre r a o Hpre_shape) as (m & Hm & _ & Hm_shape & Hm_get).
  exists m. split; [exact Hm |]. split; [exact Hm_shape |].
  intros j x y d. rewrite Hm_get, Hpre_get, Hspin_get, Horb_get. reflexivity.
Qed.

(** The checks and the regime dispatch of [moments] on noncollinear data. *)
Lemma noncollinear_moments_dispatch (raw : RawMagnetism T) (steps : selector)
  (n a o : nat) (selection : string) :
  well_shaped raw n 4 a o ->
  _raise_error_if_steps_out_of_bounds zero raw steps = Ok tt ->
  _raise_error_if_selection_not_available raw selection = Ok tt ->
  moments zero add raw steps selection =
  (m <- _noncollinear_moments zero add raw steps selection ;; Ok (Some m)).
Proof.
  intros [Hs _] Hcheck Hsel. unfold moments. rewrite Hcheck, Hsel. cbn.
  unfold _only_charge, _spin_polarized, shape_at. rewrite Hs. reflexivity.
Qed.

End Noncollinear.

Section NoncollinearClaims.

Context {T : Type}.
Variable zero : T.
Variable add : T -> T -> T.

Lemma available_total (raw : RawMagnetism T) :
  _raise_error_if_selection_not_available raw "total" = Ok tt.
Proof. reflexivity. Qed.

Lemma available_spin (raw : RawMagnetism T) :
  _raise_error_if_selection_not_available raw "spin" = Ok tt.
Proof. reflexivity. Qed.

Lemma available_orbital (raw : RawMagnetism T) :
  _raise_error_if_selection_not_available raw "orbital" =
  match orbital_moments raw with
  | Some _ => Ok tt
  | None => Raise (NoData no_orbital_message)
  end.
Proof.
  unfold _raise_error_if_selection_not_available, _has_orbital_moments. cbn.
  destruct (orbital_moments raw); reflexivity.
Qed.

(** C1.  For noncollinear data (four components) with orbital moments
    present and every step selection that passes the bounds check,
    [moments("total")] is the elementwise sum of [moments("spin")] and
    [moments("orbital")]: the three arrays have one shape, and every element
    of the total is the spin element plus the orbital element at the same
    index.  The spin contribution holds components 1..3 of [spin_moments]
    and the orbital contribution the matching entries of
    [orbital_moments]. *)
Theorem noncollinear_total_is_spin_plus_orbital (raw : RawMagnetism T)
  (steps : selector) (n a o : nat) (om : ndarray T) :
  well_shaped raw n 4 a o ->
  orbital_moments raw = Some om ->
  _raise_error_if_steps_out_of_bounds zero raw steps = Ok tt ->
  exists r total spin orbital both,
    resolve n steps = Ok r /\
    moments zero add raw steps "total" = Ok (Some total) /\
    moments zero add raw steps "spin" = Ok (Some spin) /\
    moments zero add raw steps "orbital" = Ok (Some orbital) /\
    shape total = lead_shape r ++ [a; o; 3] /\
    shape spin = shape total /\
    shape orbital = shape total /\
    (forall idx,
        in_range (shape total) idx ->
        get total idx = add (get spin idx) (get orbital idx)) /\
    add_arrays add spin orbital = Ok both /\
    arr_eq total both /\
    (forall j x y d,
        get spin (lead r j ++ [x; y; d]) =
        get (spin_moments raw) [step_of r j; S d; x; y]) /\
    (forall j x y d,
        get orbital (lead r j ++ [x; y; d]) = get om [step_of r j; S d; x; y]).
Proof.
  intros Hw Hom Hcheck.
  destruct (proj1 (steps_check_passes zero raw steps n 4 a o Hw) Hcheck) as [r Hr].
  destruct (noncollinear_moments_spec zero add raw steps n a o r "total" Hw Hr)
    as (total & Ht & Ht_shape & Ht_get).
  destruct (noncollinear_moments_spec zero add raw steps n a o r "spin" Hw Hr)
    as (spin & Hsp & Hsp_shape & Hsp_get).
  destruct (noncollinear_moments_spec zero add raw steps n a o r "orbital" Hw Hr)
    as (orbital & Hor & Hor_shape & Hor_get).
  rewrite Hom in Ht_get, Hsp_get, Hor_get. cbn in Ht_get, Hsp_get, Hor_get.
  assert (Hsum : forall idx,
             in_range (shape total) idx ->
             get total idx = add (get spin idx) (get orbital idx)).
  { intros idx Hidx. rewrite Ht_shape in Hidx.
    destruct (in_range_lead r _ idx Hidx) as (j & rest & -> & Hrest).
    destruct (in_range_three a o 3 rest Hrest) as (x & y & d & ->).
    rewrite Ht_get, Hsp_get, Hor_get. reflexivity. }
  exists r, total, spin, orbital.
  exists (mk_nd (shape spin) (fun idx => add (get spin idx) (get orbital idx))).
  split; [exact Hr |].
  rewrite !(noncollinear_moments_dispatch zero add raw steps n a o) by
    (try assumption; rewrite ?available_orbital, ?Hom; reflexivity).
  rewrite Ht, Hsp, Hor. cbn [bind].
  split; [reflexivity |]. split; [reflexivity |]. split; [reflexivity |].
  split; [exact Ht_shape |]. split; [congruence |]. split; [congruence |].
  split; [exact Hsum |].
  split; [| split; [| split; [exact Hsp_get | exact Hor_get]]].
  - unfold add_arrays.
    destruct (list_eq_dec Nat.eq_dec (shape spin) (shape orbital)) as [_ | Hne];
      [reflexivity | elim Hne; congruence].
  - split; [cbn; congruence |].
    intros idx Hidx. cbn [get]. apply Hsum, Hidx.
Qed.

End NoncollinearClaims.

Lemma noncollinear_total_is_spin_plus_orbital_witness :
  exists total spin orbital,
    moments 0%Z Z.add Samples.noncollinear_with_orbital (Index 0) "total" =
      Ok (Some total) /\
    moments 0%Z Z.add Samples.noncollinear_with_orbital (Index 0) "spin" =
      Ok (Some spin) /\
    moments 0%Z Z.add Samples.noncollinear_with_orbital (Index 0) "orbital" =
      Ok (Some orbital) /\
    shape total = [2; 2; 3] /\
    shape spin = shape total /\
    shape orbital = shape total /\
    (forall idx,
        in_range (shape total) idx ->
        get total idx = (get spin idx + get orbital idx)%Z) /\
    flat spin = [10; 11; 12; 20; 21; 22; 30; 31; 32; 40; 41; 42]%Z /\
    flat orbital = [1; 5; 9; 2; 6; 10; 3; 7; 11; 4; 8; 12]%Z /\
    flat total = [11; 16; 21; 22; 27; 32; 33; 38; 43; 44; 49; 54]%Z.
Proof.
  destruct (noncollinear_total_is_spin_plus_orbital 0%Z Z.add
              Samples.noncollinear_with_orbital (Index 0) 2 2 2
              Samples.noncollinear_orbital)
    as (r & total & spin & orbital & both & Hr & Ht & Hsp & Hor & Hshape &
        Hshape_spin & Hshape_orbital & Hsum & _).
  - split; reflexivity.
  - reflexivity.
  - reflexivity.
  - pose (chosen := fun selection =>
            match moments 0%Z Z.add Samples.noncollinear_with_orbital (Index 0)
                    selection with
            | Ok (Some m) => m
            | _ => zeros 0%Z []
            end).
    assert (Et : total = chosen "total"%string) by (unfold chosen; rewrite Ht; reflexivity).
    assert (Es : spin = chosen "spin"%string) by (unfold chosen; rewrite Hsp; reflexivity).
    assert (Eo : orbital = chosen "orbital"%string) by (unfold chosen; rewrite Hor; reflexivity).
    assert (Er : r = OneStep 0) by (vm_compute in Hr; congruence).
    exists total, spin, orbital.
    split; [exact Ht |]. split; [exact Hsp |]. split; [exact Hor |].
    split; [rewrite Hshape, Er; reflexivity |].
    split; [exact Hshape_spin |]. split; [exact Hshape_orbital |].
    split; [exact Hsum |].
    rewrite Et, Es, Eo. repeat split; vm_compute; reflexivity.
Defined.

(** ** Charges, totals and the dictionary *)

Section Totals.

Context {T : Type}.
Variable zero : T.
Variable add : T -> T -> T.

(** The component-0 slice, element by element. *)
Lemma charges_spec (raw : RawMagnetism T) (steps : selector) (n c a o : nat)
  (r : resolved) :
  shape (spin_moments raw) = [n; S c; a; o] ->
  resolve n steps = Ok r ->
  exists q,
    charges zero raw steps = Ok q /\
    getitem (spin_moments raw) [steps; Index 0] = Ok q /\
    shape q = lead_shape r ++ [a; o] /\
    forall j x y,
      get q (lead r j ++ [x; y]) = get (spin_moments raw) [step_of r j; 0; x; y].
Proof.
  intros Hs Hr. unfold charges.
  rewrite (steps_check_verdict zero raw steps n _ Hs), Hr. cbn [bind].
  unfold getitem. rewrite Hs.
  assert (Hzero : normalize_index (S c) 0 = Ok 0).
  { rewrite normalize_index_in_bounds. unfold index_in_bounds.
    replace ((- Z.of_nat (S c) <=? 0)%Z) with true by (symmetry; apply Z.leb_le; lia).
    replace ((0 <? Z.of_nat (S c))%Z) with true by (symmetry; apply Z.ltb_lt; lia).
    reflexivity. }
  destruct (resolve_inv n steps r Hr)
    as [(i & k & -> & E & ->) | (b & e & st & lo & s & count & -> & E & ->)];
    cbn [getitem_plan]; rewrite E, Hzero; cbn;
    (eexists; split; [reflexivity | split; [reflexivity |
       split; [reflexivity | intros; reflexivity]]]).
Qed.

(** Summing the last axis of an array whose last two axes are atoms and
    orbitals. *)
Lemma sum_last_axis (q : ndarray T) (r : resolved) (a o : nat) :
  shape q = lead_shape r ++ [a; o] ->
  exists t,
    sum zero add q (-1) = Ok t /\
    shape t = lead_shape r ++ [a] /\
    forall j x,
      get t (lead r j ++ [x]) =
      sum_lane zero add (map (fun y => get q (lead r j ++ [x; y])) (seq 0 o)).
Proof.
  intros Hs. unfold sum, ndim. rewrite Hs.
  destruct r as [k | lo st count]; cbn;
    (eexists; split; [reflexivity | split; [reflexivity | intros; reflexivity]]).
Qed.

(** C8 (amended).  For every step selection that passes the bounds check
    and every regime (at least the charge component), [total_charges]
    equals [charges] reduced by summing over the orbital axis, which is the
    last axis of the charges array: one value per atom, the sum of the
    atom's per-orbital charges. *)
Theorem total_charges_sums_last_axis (raw : RawMagnetism T)
  (steps : selector) (n c a o : nat) :
  well_shaped raw n (S c) a o ->
  _raise_error_if_steps_out_of_bounds zero raw steps = Ok tt ->
  exists r q t,
    resolve n steps = Ok r /\
    charges zero raw steps = Ok q /\
    total_charges zero add raw steps = Ok (Some t) /\
    sum zero add q (-1) = Ok t /\
    shape q = lead_shape r ++ [a; o] /\
    shape t = lead_shape r ++ [a] /\
    forall j x,
      get t (lead r j ++ [x]) =
      sum_lane zero add (map (fun y => get q (lead r j ++ [x; y])) (seq 0 o)).
Proof.
  intros Hw Hcheck.
  destruct (proj1 (steps_check_passes zero raw steps n (S c) a o Hw) Hcheck) as [r Hr].
  destruct Hw as [Hs _].
  destruct (charges_spec raw steps n c a o r Hs Hr) as (q & Hq & _ & Hq_shape & _).
  destruct (sum_last_axis q r a o Hq_shape) as (t & Ht & Ht_shape & Ht_get).
  exists r, q, t. repeat split; try assumption.
  unfold total_charges. rewrite Hq. cbn. rewrite Ht. reflexivity.
Qed.


Lemma is_slice_resolved (n : nat) (steps : selector) (r : resolved) :
  resolve n steps = Ok r ->
  is_slice steps = match r with OneStep _ => false | ManySteps _ _ _ => true end.
Proof.
  intros Hr.
  destruct (resolve_inv n steps r Hr)
    as [(i & k & -> & E & ->) | (b & e & st & lo & s & count & -> & E & ->)];
    reflexivity.
Qed.



End Totals.

Lemma total_charges_sums_last_axis_witness :
  exists r q t,
    resolve 1 (Index (-1)) = Ok r /\
    charges 0%Z Samples.charge_only (Index (-1)) = Ok q /\
    total_charges 0%Z Z.add Samples.charge_only (Index (-1)) = Ok (Some t) /\
    sum 0%Z Z.add q (-1) = Ok t /\
    shape q = lead_shape r ++ [2; 3] /\
    shape t = lead_shape r ++ [2] /\
    forall j x,
      get t (lead r j ++ [x]) =
      sum_lane 0%Z Z.add (map (fun y => get q (lead r j ++ [x; y])) (seq 0 3)).
Proof.
  apply (total_charges_sums_last_axis 0%Z Z.add Samples.charge_only (Index (-1)) 1 0 2 3).
  - split; reflexivity.
  - reflexivity.
Defined.

(** C8, as stated, fails: on two atoms with the orbital charges 1, 2, 3 and
    4, 5, 6, [total_charges] is 6, 15 (one value per atom, the last axis
    summed), whereas summing the second-to-last axis of the charges gives
    5, 7, 9 (one value per orbital). *)
Lemma total_charges_not_second_to_last_axis :
  exists q t other,
    charges 0%Z Samples.charge_only (Index (-1)) = Ok q /\
    total_charges 0%Z Z.add Samples.charge_only (Index (-1)) = Ok (Some t) /\
    sum 0%Z Z.add q (-2) = Ok other /\
    shape q = [2; 3] /\
    flat q = [1; 2; 3; 4; 5; 6]%Z /\
    flat t = [6; 15]%Z /\
    flat other = [5; 7; 9]%Z /\
    ~ arr_eq t other.
Proof.
  eexists. eexists. eexists.
  split; [reflexivity |]. split; [reflexivity |]. split; [reflexivity |].
  split; [reflexivity |]. split; [reflexivity |]. split; [reflexivity |].
  split; [reflexivity |].
  intros [Hshape _]. cbn in Hshape. discriminate.
Qed.


(** ** Absent moments *)

Section Absent.

Context {T : Type}.
Variable zero : T.
Variable add : T -> T -> T.

(** Summing the orbital axis of vector-valued moments, the second-to-last
    one. *)
Lemma sum_orbital_axis_of_vectors (m : ndarray T) (r : resolved) (a o : nat) :
  shape m = lead_shape r ++ [a; o; 3] ->
  exists t,
    sum zero add m (-2) = Ok t /\
    shape t = lead_shape r ++ [a; 3] /\
    forall j x d,
      get t (lead r j ++ [x; d]) =
      sum_lane zero add (map (fun y => get m (lead r j ++ [x; y; d])) (seq 0 o)).
Proof.
  intros Hs. unfold sum, ndim. rewrite Hs.
  destruct r as [k | lo st count]; cbn;
    (eexists; split; [reflexivity | split; [reflexivity | intros; reflexivity]]).
Qed.

(** C10.  For data of one of the three regimes, every step selection that
    passes the bounds check and every selection that passes validation,
    [moments] and [total_moments] both return, and [total_moments] is the
    absent value exactly when [moments] is, which is exactly the charge-only
    regime: the summation over orbitals hands an absent value through. *)
Theorem total_moments_absent_iff_moments_absent (raw : RawMagnetism T)
  (steps : selector) (n c a o : nat) (selection : string) :
  well_shaped raw n c a o ->
  c = 1 \/ c = 2 \/ c = 4 ->
  _raise_error_if_steps_out_of_bounds zero raw steps = Ok tt ->
  _raise_error_if_selection_not_available raw selection = Ok tt ->
  exists m t,
    moments zero add raw steps selection = Ok m /\
    total_moments zero add raw steps selection = Ok t /\
    (t = None <-> m = None) /\
    (m = None <-> c = 1) /\
    (forall is_vector, _sum_over_orbitals zero add None is_vector = Ok None).
Proof.
  intros Hw Hc Hcheck Hsel.
  destruct (proj1 (steps_check_passes zero raw steps n c a o Hw) Hcheck) as [r Hr].
  pose proof Hw as [Hs _].
  destruct Hc as [-> | [-> | ->]].
  - exists None, None.
    assert (Hm : moments zero add raw steps selection = Ok None).
    { unfold moments. rewrite Hcheck, Hsel. cbn.
      unfold _only_charge, shape_at. rewrite Hs. reflexivity. }
    split; [exact Hm |]. split.
    { unfold total_moments. rewrite Hm. cbn.
      unfold _noncollinear, shape_at. rewrite Hs. reflexivity. }
    repeat split; auto.
  - destruct (collinear_slice raw steps n 0 a o r Hs Hr) as (m & Hm & Hshape & _).
    destruct (sum_last_axis zero add m r a o Hshape) as (t & Ht & _).
    exists (Some m), (Some t).
    assert (Hmom : moments zero add raw steps selection = Ok (Some m)).
    { unfold moments. rewrite Hcheck, Hsel. cbn.
      unfold _only_charge, _spin_polarized, shape_at. rewrite Hs. cbn.
      rewrite Hm. reflexivity. }
    split; [exact Hmom |]. split.
    { unfold total_moments. rewrite Hmom. cbn.
      unfold _noncollinear, shape_at. rewrite Hs. cbn. rewrite Ht. reflexivity. }
    repeat split; intros; discriminate.
  - destruct (noncollinear_moments_spec zero add raw steps n a o r selection Hw Hr)
      as (m & Hm & Hshape & _).
    destruct (sum_orbital_axis_of_vectors m r a o Hshape) as (t & Ht & _).
    exists (Some m), (Some t).
    assert (Hmom : moments zero add raw steps selection = Ok (Some m)).
    { rewrite (noncollinear_moments_dispatch zero add raw steps n a o selection
                 Hw Hcheck Hsel).
      rewrite Hm. reflexivity. }
    split; [exact Hmom |]. split.
    { unfold total_moments. rewrite Hmom. cbn.
      unfold _noncollinear, shape_at. rewrite Hs. cbn. rewrite Ht. reflexivity. }
    repeat split; intros; discriminate.
Qed.

End Absent.

Lemma total_moments_absent_iff_moments_absent_witness :
  exists m t,
    moments 0%Z Z.add Samples.charge_only (Index 0) "spin" = Ok m /\
    total_moments 0%Z Z.add Samples.charge_only (Index 0) "spin" = Ok t /\
    (t = None <-> m = None) /\
    (m = None <-> 1 = 1) /\
    (forall is_vector, _sum_over_orbitals 0%Z Z.add None is_vector = Ok None).
Proof.
  apply (total_moments_absent_iff_moments_absent 0%Z Z.add Samples.charge_only
           (Index 0) 1 1 2 3 "spin").
  - split; reflexivity.
  - left. reflexivity.
  - reflexivity.
  - reflexivity.
Defined.

(** ** Which calls end in IncorrectUsage *)

Lemma usage_error_iff {A : Type} (r : result A) (msg : string) :
  usage_error r = Some msg <-> r = Raise (IncorrectUsage msg).
Proof.
  split.
  - destruct r as [x | e]; [discriminate |]. destruct e; cbn; try discriminate.
    intros H; inversion H; reflexivity.
  - intros ->. reflexivity.
Qed.

Lemma usage_bind {A B : Type} (c : result A) (k : A -> result B) :
  usage_error (bind c k) =
  match c with
  | Ok x => usage_error (k x)
  | Raise e => usage_error (@Raise A e)
  end.
Proof. destruct c as [x | e]; [reflexivity |]. destruct e; reflexivity. Qed.

Lemma usage_bind_none {A B : Type} (c : result A) (k : A -> result B) :
  usage_error c = None ->
  (forall x, usage_error (k x) = None) ->
  usage_error (bind c k) = None.
Proof.
  intros Hc Hk. rewrite usage_bind. destruct c as [x | e]; [apply Hk | exact Hc].
Qed.

Lemma normalize_index_usage (n : nat) (i : Z) :
  usage_error (normalize_index n i) = None.
Proof.
  rewrite normalize_index_in_bounds. destruct (index_in_bounds n i); reflexivity.
Qed.

Lemma slice_indices_usage (n : nat) (b e st : option Z) :
  usage_error (slice_indices n b e st) = None.
Proof.
  unfold slice_indices.
  destruct (match st with Some s => s | None => 1%Z end =? 0)%Z; reflexivity.
Qed.

Lemma normalize_axis_usage (nd : nat) (axis : Z) :
  usage_error (normalize_axis nd axis) = None.
Proof.
  unfold normalize_axis.
  destruct ((- Z.of_nat nd <=? axis)%Z && (axis <? Z.of_nat nd)%Z); reflexivity.
Qed.

Lemma getitem_plan_usage (sels : list selector) :
  forall shp, usage_error (getitem_plan sels shp) = None.
Proof.
  induction sels as [| sel sels IH]; intros shp; [reflexivity |].
  destruct shp as [| n shp]; [destruct sel; reflexivity |].
  destruct sel as [i | b e st]; cbn [getitem_plan].
  - apply usage_bind_none; [apply normalize_index_usage | intros k].
    apply usage_bind_none; [apply IH | reflexivity].
  - apply usage_bind_none; [apply slice_indices_usage | intros [[lo s] count]].
    apply usage_bind_none; [apply IH | reflexivity].
Qed.

Section NumpyRaises.

Context {T : Type}.
Variable zero : T.
Variable add : T -> T -> T.

Lemma getitem_usage (a : ndarray T) (sels : list selector) :
  usage_error (getitem a sels) = None.
Proof.
  unfold getitem. apply usage_bind_none; [apply getitem_plan_usage | reflexivity].
Qed.

Lemma moveaxis_usage (a : ndarray T) (source destination : Z) :
  usage_error (moveaxis a source destination) = None.
Proof.
  unfold moveaxis.
  apply usage_bind_none; [apply normalize_axis_usage | intros s].
  apply usage_bind_none; [apply normalize_axis_usage | reflexivity].
Qed.

Lemma add_arrays_usage (a b : ndarray T) :
  usage_error (add_arrays add a b) = None.
Proof.
  unfold add_arrays.
  destruct (list_eq_dec Nat.eq_dec (shape a) (shape b)); reflexivity.
Qed.

Lemma sum_usage (a : ndarray T) (axis : Z) :
  usage_error (sum zero add a axis) = None.
Proof.
  unfold sum. apply usage_bind_none; [apply normalize_axis_usage | reflexivity].
Qed.

Lemma shape_at_usage (a : ndarray T) (k : nat) :
  usage_error (shape_at a k) = None.
Proof. unfold shape_at. destruct (nth_error (shape a) k); reflexivity. Qed.

Lemma sum_over_orbitals_usage (quantity : option (ndarray T)) (is_vector : bool) :
  usage_error (_sum_over_orbitals zero add quantity is_vector) = None.
Proof.
  unfold _sum_over_orbitals. destruct quantity as [q |]; [| reflexivity].
  destruct is_vector; (apply usage_bind_none; [apply sum_usage | reflexivity]).
Qed.

Lemma noncollinear_moments_usage (raw : RawMagnetism T) (steps : selector)
  (selection : string) :
  usage_error (_noncollinear_moments zero add raw steps selection) = None.
Proof.
  unfold _noncollinear_moments.
  apply usage_bind_none; [apply getitem_usage | intros spin].
  apply usage_bind_none.
  { destruct (orbital_moments raw); [apply getitem_usage | reflexivity]. }
  intros orbital. apply usage_bind_none.
  { destruct (String.eqb selection "orbital"); [reflexivity |].
    destruct (String.eqb selection "spin"); [reflexivity | apply add_arrays_usage]. }
  intros m. apply moveaxis_usage.
Qed.

End NumpyRaises.

Lemma valid_selection_existsb (selection : string) :
  existsb (String.eqb selection) ["spin"; "orbital"; "total"]%string = true <->
  valid_selection selection.
Proof.
  unfold valid_selection. rewrite existsb_exists. split.
  - intros (x & Hin & Heq). apply String.eqb_eq in Heq. subst x.
    cbn in *. intuition.
  - intros Hin. exists selection. split; [cbn in *; intuition | apply String.eqb_refl].
Qed.

Lemma resolve_index_error (n : nat) (steps : selector) :
  resolve n steps = Raise IndexError <->
  exists i, steps = Index i /\ index_in_bounds n i = false.
Proof.
  split.
  - intros H. destruct (resolve_raises n steps _ H)
      as [(i & -> & Hb & _) | (b & s & _ & Habs)]; [eauto | discriminate].
  - intros (i & -> & Hb). cbn. rewrite normalize_index_in_bounds, Hb. reflexivity.
Qed.

Lemma append_assoc (s1 s2 s3 : string) :
  ((s1 ++ s2) ++ s3 = s1 ++ (s2 ++ s3))%string.
Proof. induction s1 as [| ch s1 IH]; cbn; [reflexivity | now rewrite IH]. Qed.

Lemma usage_bind_tail {A B : Type} (c : result A) (k : A -> result B) :
  (forall x, usage_error (k x) = None) ->
  usage_error (bind c k) = usage_error c.
Proof.
  intros Hk. rewrite usage_bind. destruct c as [x | e]; [apply Hk | reflexivity].
Qed.

Section UsageErrors.

Context {T : Type}.
Variable zero : T.
Variable add : T -> T -> T.
Variable raw : RawMagnetism T.
Variable steps : selector.
Variables n c a o : nat.
Hypothesis Hshape : well_shaped raw n c a o.

Lemma steps_check_usage :
  usage_error (_raise_error_if_steps_out_of_bounds zero raw steps) =
  match resolve n steps with
  | Raise IndexError => Some (steps_message steps)
  | _ => None
  end.
Proof.
  destruct Hshape as [Hs _]. rewrite (steps_check_verdict zero raw steps n _ Hs).
  destruct (resolve n steps) as [r | e] eqn:E; [reflexivity |].
  destruct (resolve_raises n steps e E) as [(i & _ & _ & ->) | (b & s & _ & ->)];
    reflexivity.
Qed.

Lemma selection_check_usage (selection : string) :
  usage_error (_raise_error_if_selection_not_available raw selection) =
  if existsb (String.eqb selection) ["spin"; "orbital"; "total"]%string
  then None else Some (selection_message selection).
Proof.
  unfold _raise_error_if_selection_not_available.
  destruct (existsb (String.eqb selection) ["spin"; "orbital"; "total"]%string);
    [| reflexivity].
  cbn [negb]. destruct (negb (String.eqb selection "orbital") || _has_orbital_moments raw);
    reflexivity.
Qed.

Lemma charges_usage :
  usage_error (charges zero raw steps) =
  usage_error (_raise_error_if_steps_out_of_bounds zero raw steps).
Proof. unfold charges. apply usage_bind_tail. intros _. apply getitem_usage. Qed.

Lemma total_charges_usage :
  usage_error (total_charges zero add raw steps) =
  usage_error (_raise_error_if_steps_out_of_bounds zero raw steps).
Proof.
  unfold total_charges. rewrite usage_bind_tail; [apply charges_usage |].
  intros q. apply sum_over_orbitals_usage.
Qed.

Lemma moments_usage (selection : string) :
  usage_error (moments zero add raw steps selection) =
  match resolve n steps with
  | Ok _ =>
      if existsb (String.eqb selection) ["spin"; "orbital"; "total"]%string
      then None else Some (selection_message selection)
  | Raise IndexError => Some (steps_message steps)
  | Raise _ => None
  end.
Proof.
  unfold moments. rewrite usage_bind.
  pose proof steps_check_usage as Hcheck.
  destruct Hshape as [Hs _].
  rewrite (steps_check_verdict zero raw steps n _ Hs) in *.
  destruct (resolve n steps) as [r | e] eqn:E.
  - rewrite usage_bind_tail; [apply selection_check_usage |].
    intros _. apply usage_bind_none.
    { unfold _only_charge. apply usage_bind_none; [apply shape_at_usage | reflexivity]. }
    intros only_charge. destruct only_charge; [reflexivity |].
    apply usage_bind_none.
    { unfold _spin_polarized. apply usage_bind_none; [apply shape_at_usage | reflexivity]. }
    intros spin_polarized. destruct spin_polarized.
    + apply usage_bind_none; [apply getitem_usage | reflexivity].
    + apply usage_bind_none; [apply noncollinear_moments_usage | reflexivity].
  - destruct (resolve_raises n steps e E) as [(i & _ & _ & ->) | (b & s & _ & ->)];
      reflexivity.
Qed.

Lemma total_moments_usage (selection : string) :
  usage_error (total_moments zero add raw steps selection) =
  usage_error (moments zero add raw steps selection).
Proof.
  unfold total_moments. apply usage_bind_tail. intros m.
  apply usage_bind_none.
  - unfold _noncollinear. apply usage_bind_none; [apply shape_at_usage | reflexivity].
  - intros is_vector. apply sum_over_orbitals_usage.
Qed.

(** C4 (amended).  On well-shaped data, [charges] and [total_charges] raise
    IncorrectUsage exactly when the step selector is an integer outside
    [-n, n), [n] being the length of the step axis; [moments] and
    [total_moments] raise it exactly in that case or when the selector is
    accepted and the selection tag is none of total, spin, orbital.  The
    message contains the offending selector, respectively the offending tag
    and the three valid ones.  A slice never raises IncorrectUsage from the
    bounds check, whatever its start and stop: NumPy clamps them. *)
Theorem incorrect_usage_exactly_bad_index_or_tag (selection : string) :
  let bad_index := exists i, steps = Index i /\ index_in_bounds n i = false in
  (forall msg,
      charges zero raw steps = Raise (IncorrectUsage msg) <->
      bad_index /\ msg = steps_message steps) /\
  (forall msg,
      total_charges zero add raw steps = Raise (IncorrectUsage msg) <->
      bad_index /\ msg = steps_message steps) /\
  (forall msg,
      moments zero add raw steps selection = Raise (IncorrectUsage msg) <->
      (bad_index /\ msg = steps_message steps) \/
      (accepted n steps /\ ~ valid_selection selection /\
       msg = selection_message selection)) /\
  (forall msg,
      total_moments zero add raw steps selection = Raise (IncorrectUsage msg) <->
      (bad_index /\ msg = steps_message steps) \/
      (accepted n steps /\ ~ valid_selection selection /\
       msg = selection_message selection)) /\
  Substring (str_of_selector steps) (steps_message steps) /\
  Substring selection (selection_message selection) /\
  Substring "total, spin, or orbital" (selection_message selection) /\
  (is_slice steps = true ->
   usage_error (_raise_error_if_steps_out_of_bounds zero raw steps) = None).
Proof.
  intros bad_index.
  assert (Hsteps : forall msg,
             usage_error (_raise_error_if_steps_out_of_bounds zero raw steps) = Some msg <->
             bad_index /\ msg = steps_message steps).
  { intros msg. rewrite steps_check_usage. unfold bad_index.
    rewrite <- resolve_index_error.
    destruct (resolve n steps) as [r | e].
    - split; [discriminate | intros [? _]; discriminate].
    - destruct e; try (split; [discriminate | intros [? _]; discriminate]).
      split.
      + intros H; inversion H. auto.
      + intros [_ ->]. reflexivity. }
  assert (Hmoments : forall msg,
             usage_error (moments zero add raw steps selection) = Some msg <->
             (bad_index /\ msg = steps_message steps) \/
             (accepted n steps /\ ~ valid_selection selection /\
              msg = selection_message selection)).
  { intros msg. rewrite moments_usage. unfold bad_index.
    rewrite <- resolve_index_error, accepted_resolve, <- valid_selection_existsb.
    destruct (resolve n steps) as [r | e].
    - destruct (existsb (String.eqb selection) ["spin"; "orbital"; "total"]%string).
      + split; [discriminate |].
        intros [[? _] | (_ & Hv & _)]; [discriminate | now elim Hv].
      + split.
        * intros H; inversion H. right. repeat split; eauto.
        * intros [[? _] | (_ & _ & ->)]; [discriminate | reflexivity].
    - destruct e;
        try (split;
             [discriminate
             | intros [[? _] | ([r Hr] & _)]; discriminate]).
      split.
      + intros H; inversion H. left. auto.
      + intros [[_ ->] | ([r Hr] & _)]; [reflexivity | discriminate]. }
  split.
  { intros msg. rewrite <- usage_error_iff, charges_usage. apply Hsteps. }
  split.
  { intros msg. rewrite <- usage_error_iff, total_charges_usage. apply Hsteps. }
  split.
  { intros msg. rewrite <- usage_error_iff. apply Hmoments. }
  split.
  { intros msg. rewrite <- usage_error_iff, total_moments_usage. apply Hmoments. }
  split.
  { exists "Error reading the magnetic moments. Please check if the steps `"%string,
      "` are properly formatted and within the boundaries."%string.
    reflexivity. }
  split.
  { exists "The selection "%string,
      " is incorrect. Please check if it is spelled correctly. Possible choices are total, spin, or orbital."%string.
    reflexivity. }
  split.
  { exists ("The selection " ++ selection
            ++ " is incorrect. Please check if it is spelled correctly. Possible choices are ")%string,
      "."%string.
    unfold selection_message. rewrite !append_assoc. reflexivity. }
  intros Hslice. rewrite steps_check_usage.
  destruct steps as [i | b e st]; [discriminate |].
  cbn. destruct (slice_indices n b e st) as [[[lo s] count] | err] eqn:E; [reflexivity |].
  destruct (resolve_raises n (Slice b e st) err) as [(i & Habs & _) | (b' & s' & _ & ->)].
  - cbn. rewrite E. reflexivity.
  - discriminate.
  - reflexivity.
Qed.

End UsageErrors.

Lemma incorrect_usage_exactly_bad_index_or_tag_witness :
  charges 0%Z Samples.collinear (Index 2) =
    Raise (IncorrectUsage (steps_message (Index 2))) /\
  moments 0%Z Z.add Samples.collinear (Index 0) "bogus" =
    Raise (IncorrectUsage (selection_message "bogus")).
Proof.
  assert (W : well_shaped Samples.collinear 2 2 2 2) by (split; reflexivity).
  split.
  - destruct (incorrect_usage_exactly_bad_index_or_tag 0%Z Z.add Samples.collinear
                (Index 2) 2 2 2 2 W "total") as (Hcharges & _).
    apply Hcharges. split; [| reflexivity]. exists 2%Z. split; reflexivity.
  - destruct (incorrect_usage_exactly_bad_index_or_tag 0%Z Z.add Samples.collinear
                (Index 0) 2 2 2 2 W "bogus") as (_ & _ & Hmoments & _).
    apply Hmoments. right. split; [reflexivity |]. split; [| reflexivity].
    unfold valid_selection. cbn. intros [H | [H | [H | []]]]; discriminate.
Defined.

(** C4, as stated, fails for slices: on two steps, the slice 10:20 does not
    lie within the bounds of the step axis, and yet [charges] returns (an
    array without steps) instead of raising IncorrectUsage. *)
Lemma out_of_bounds_slice_is_not_refused :
  lies_within_bounds 2 (Slice (Some 10%Z) (Some 20%Z) None) = false /\
  (exists q,
      charges 0%Z Samples.collinear (Slice (Some 10%Z) (Some 20%Z) None) = Ok q /\
      shape q = [0; 2; 2]) /\
  ~ (forall steps,
       lies_within_bounds 2 steps = false ->
       exists msg, charges 0%Z Samples.collinear steps = Raise (IncorrectUsage msg)).
Proof.
  split; [reflexivity |]. split.
  - eexists. split; reflexivity.
  - intros H.
    destruct (H (Slice (Some 10%Z) (Some 20%Z) None) eq_refl) as [msg Hmsg].
    vm_compute in Hmsg. discriminate.
Qed.

(** ** The report *)

Lemma flat_map_singleton {A B : Type} (f : A -> B) (l : list A) :
  flat_map (fun x => [f x]) l = map f l.
Proof. induction l as [| x l IH]; cbn; [reflexivity | now rewrite IH]. Qed.

Lemma indices_vector (k : nat) : indices [k] = map (fun j => [j]) (seq 0 k).
Proof. cbn. apply flat_map_singleton. Qed.

Lemma flat_vector {T : Type} (m : ndarray T) (k : nat) :
  shape m = [k] -> flat m = map (fun j => get m [j]) (seq 0 k).
Proof.
  intros Hs. unfold flat. rewrite Hs, indices_vector, map_map. reflexivity.
Qed.

Lemma map_result_ok {A B : Type} (f : A -> result B) (g : A -> B) (l : list A) :
  (forall x, In x l -> f x = Ok (g x)) ->
  map_result f l = Ok (map g l).
Proof.
  induction l as [| x l IH]; intros H; cbn; [reflexivity |].
  rewrite (H x (or_introl eq_refl)), IH; [reflexivity |].
  intros y Hy. apply H. now right.
Qed.

Lemma moments_to_string_vector (vec : ndarray float) (k : nat) :
  shape vec = [k] ->
  moments_to_string vec =
  Ok (String.concat " " (map (fun j => format_2f (get vec [j])) (seq 0 k))).
Proof.
  intros Hs. unfold moments_to_string. rewrite Hs.
  rewrite (flat_vector vec k Hs), map_map. reflexivity.
Qed.

(** Rounding to the nearest integer, ties to even: the result is within one
    half of the quotient. *)
Lemma round_half_even_nearest (num den : Z) :
  (0 < den)%Z ->
  (2 * Z.abs (round_half_even num den * den - num) <= den)%Z.
Proof.
  intros Hden. unfold round_half_even.
  pose proof (Z.div_mod num den ltac:(lia)) as Hdiv.
  pose proof (Z.mod_pos_bound num den Hden) as Hmod.
  destruct (den <? 2 * (num mod den))%Z eqn:E1.
  - apply Z.ltb_lt in E1. nia.
  - apply Z.ltb_ge in E1.
    destruct ((2 * (num mod den) =? den)%Z && Z.odd (num / den)) eqn:E2.
    + apply andb_prop in E2 as [E2 _]. apply Z.eqb_eq in E2. nia.
    + nia.
Qed.

(** The two fractional digits stand for the multiple of 1/100 nearest to
    the exact value [m * 2^e] of the double. *)
Lemma hundredths_nearest (m : positive) (e : Z) :
  ((0 <= e -> hundredths m e = Z.pos m * 2 ^ e * 100) /\
   (e < 0 ->
    2 * Z.abs (hundredths m e * 2 ^ (- e) - Z.pos m * 100) <= 2 ^ (- e)))%Z.
Proof.
  unfold hundredths. split; intros He.
  - apply Z.leb_le in He. rewrite He. reflexivity.
  - apply Z.leb_gt in He as He'. rewrite He'.
    apply round_half_even_nearest. apply Z.pow_pos_nonneg; lia.
Qed.

(** C9.  The report renders [total_moments] of the default selection: the
    absent value gives "not spin polarized"; a single vector gives
    "MAGMOM = " followed by its values, each printed with two decimals
    (the nearest hundredth of the stored double), joined by blanks; an
    array of vectors gives one such line per vector, joined by a blank, a
    backslash, a line feed and nine blanks.  On collinear data a slice of
    steps yields one vector per step.  The moments 1.234, -0.005 and 0.5
    are reported as "MAGMOM = 1.23 -0.01 0.50". *)
Theorem report_renders_total_moments (raw : RawMagnetism float)
  (steps : selector) :
  (total_moments 0%float PrimFloat.add raw steps "total" = Ok None ->
   __str__ raw steps = Ok "not spin polarized"%string) /\
  (forall m k,
      total_moments 0%float PrimFloat.add raw steps "total" = Ok (Some m) ->
      shape m = [k] ->
      __str__ raw steps =
      Ok ("MAGMOM = "
            ++ String.concat " " (map (fun j => format_2f (get m [j])) (seq 0 k)))%string) /\
  (forall m count k,
      total_moments 0%float PrimFloat.add raw steps "total" = Ok (Some m) ->
      shape m = [count; k] ->
      __str__ raw steps =
      Ok ("MAGMOM = "
            ++ String.concat (" \" ++ String "010"%char "         ")
                 (map (fun i =>
                         String.concat " "
                           (map (fun j => format_2f (get m [i; j])) (seq 0 k)))
                      (seq 0 count)))%string) /\
  (forall n a o,
      well_shaped raw n 2 a o ->
      _raise_error_if_steps_out_of_bounds 0%float raw steps = Ok tt ->
      exists r m,
        resolve n steps = Ok r /\
        total_moments 0%float PrimFloat.add raw steps "total" = Ok (Some m) /\
        shape m = lead_shape r ++ [a]) /\
  (forall m e,
      (e < 0)%Z ->
      (2 * Z.abs (hundredths m e * 2 ^ (- e) - Z.pos m * 100) <= 2 ^ (- e))%Z) /\
  map format_2f [1.234; -0.005; 0.5]%float = ["1.23"; "-0.01"; "0.50"]%string /\
  __str__ Samples.magmom_example (Index (-1)) = Ok "MAGMOM = 1.23 -0.01 0.50"%string.
Proof.
  split; [| split; [| split; [| split; [| split; [| split]]]]].
  - intros H. unfold __str__. rewrite H. reflexivity.
  - intros m k H Hs. unfold __str__. rewrite H. cbn [bind].
    unfold ndim. rewrite Hs. cbn [length Nat.eqb].
    rewrite (moments_to_string_vector m k Hs). reflexivity.
  - intros m count k H Hs. unfold __str__. rewrite H. cbn [bind].
    unfold ndim, iterate. rewrite Hs. cbn [length Nat.eqb bind].
    rewrite (map_result_ok moments_to_string
               (fun vec => String.concat " "
                             (map (fun j => format_2f (get vec [j])) (seq 0 k)))).
    + rewrite map_map. reflexivity.
    + intros vec Hin. apply in_map_iff in Hin as (i & <- & _).
      apply moments_to_string_vector. reflexivity.
  - intros n a o Hw Hcheck.
    destruct (proj1 (steps_check_passes 0%float raw steps n 2 a o Hw) Hcheck) as [r Hr].
    destruct Hw as [Hs _].
    destruct (collinear_slice raw steps n 0 a o r Hs Hr) as (m & Hm & Hshape & _).
    destruct (sum_last_axis 0%float PrimFloat.add m r a o Hshape) as (t & Ht & Ht_shape & _).
    exists r, t. split; [exact Hr |]. split; [| exact Ht_shape].
    unfold total_moments, moments. rewrite Hcheck. cbn.
    unfold _only_charge, _spin_polarized, _noncollinear, shape_at. rewrite Hs. cbn.
    rewrite Hm. cbn. rewrite Ht. reflexivity.
  - intros m e He. apply (proj2 (hundredths_nearest m e) He).
  - vm_compute. reflexivity.
  - vm_compute. reflexivity.
Qed.

Lemma report_renders_total_moments_witness :
  exists m,
    total_moments 0%float PrimFloat.add Samples.two_steps (Slice None None None)
      "total" = Ok (Some m) /\
    shape m = [2; 2] /\
    __str__ Samples.two_steps (Slice None None None) =
    Ok ("MAGMOM = "
          ++ String.concat (" \" ++ String "010"%char "         ")
               (map (fun i =>
                       String.concat " "
                         (map (fun j => format_2f (get m [i; j])) (seq 0 2)))
                    (seq 0 2)))%string /\
    __str__ Samples.two_steps (Slice None None None) =
    Ok ("MAGMOM = 1.50 -0.25 \" ++ String "010"%char "         2.00 0.12")%string.
Proof.
  destruct (report_renders_total_moments Samples.two_steps (Slice None None None))
    as (_ & _ & Hlines & Hsteps & _).
  destruct (Hsteps 2 2 1) as (r & m & Hr & Hm & Hs).
  - split; reflexivity.
  - reflexivity.
  - vm_compute in Hr. inversion Hr; subst r. cbn in Hs.
    exists m. split; [exact Hm |]. split; [exact Hs |].
    split; [apply (Hlines m 2 2 Hm Hs) |].
    vm_compute. reflexivity.
Defined.

(** ** Display preparation *)

Lemma indices_nonempty (shp : list nat) :
  Forall (fun n => 0 < n) shp -> indices shp <> [].
Proof.
  induction shp as [| n shp IH]; intros H; [discriminate |].
  inversion H as [| ? ? Hn Hrest]; subst. specialize (IH Hrest).
  destruct n as [| n]; [lia |]. cbn.
  destruct (indices shp) as [| idx rest]; [now elim IH | discriminate].
Qed.

Section Pipeline.

Variable raw : RawMagnetism float.
Variable steps : selector.
Variable selection : string.

(** On collinear and noncollinear data the moments handed to the norm are
    one 3-vector per selected step and atom, and the maximum norm exists as
    soon as one step and one atom are selected. *)
Lemma promoted_moments_are_vectors (n c a o : nat) :
  well_shaped raw n c a o ->
  c = 2 \/ c = 4 ->
  _raise_error_if_steps_out_of_bounds 0%float raw steps = Ok tt ->
  _raise_error_if_selection_not_available raw selection = Ok tt ->
  exists r tm m,
    resolve n steps = Ok r /\
    total_moments 0%float PrimFloat.add raw steps selection = Ok (Some tm) /\
    _convert_moment_to_3d_vector
      (_make_sure_moments_have_timestep_dimension steps (Some tm)) = Ok (Some m) /\
    shape m = [count_of r; a; 3] /\
    (0 < count_of r -> 0 < a -> exists M, _max_length_moments (Some m) = Ok M).
Proof.
  intros Hw Hc Hcheck Hsel.
  destruct (proj1 (steps_check_passes 0%float raw steps n c a o Hw) Hcheck) as [r Hr].
  pose proof (is_slice_resolved n steps r Hr) as Hslice.
  pose proof Hw as [Hs _].
  assert (Hmax : forall m : ndarray float,
             shape m = [count_of r; a; 3] ->
             0 < count_of r -> 0 < a -> exists M, _max_length_moments (Some m) = Ok M).
  { intros m Hm Hcount Ha. unfold _max_length_moments, norm, ndim. rewrite Hm.
    cbn [length]. change (normalize_axis 3 2) with (@Ok nat 2).
    cbn [bind remove_at]. unfold amax, flat. cbn [shape].
    destruct (indices [count_of r; a]) as [| idx rest] eqn:E.
    - elim (indices_nonempty [count_of r; a]); [| exact E].
      repeat constructor; assumption.
    - cbn [map]. eauto. }
  destruct Hc as [-> | ->].
  - destruct (collinear_slice raw steps n 0 a o r Hs Hr) as (m0 & Hm0 & Hshape0 & _).
    destruct (sum_last_axis 0%float PrimFloat.add m0 r a o Hshape0) as (t & Ht & Ht_shape & _).
    assert (Htotal : total_moments 0%float PrimFloat.add raw steps selection = Ok (Some t)).
    { unfold total_moments, moments. rewrite Hcheck, Hsel. cbn.
      unfold _only_charge, _spin_polarized, _noncollinear, shape_at. rewrite Hs. cbn.
      rewrite Hm0. cbn. rewrite Ht. reflexivity. }
    exists r, t.
    unfold _make_sure_moments_have_timestep_dimension. rewrite Hslice.
    destruct r as [k | lo st count]; cbn [negb];
      unfold _convert_moment_to_3d_vector, pad, reshape_append_one, newaxis, ndim;
      cbn [shape]; rewrite Ht_shape; cbn;
      (eexists; split; [exact Hr |]; split; [exact Htotal |];
       split; [reflexivity |];
       split; [cbn; rewrite !Nat.add_0_r; reflexivity |]);
      apply Hmax; cbn; rewrite !Nat.add_0_r; reflexivity.
  - destruct (noncollinear_moments_spec 0%float PrimFloat.add raw steps n a o r selection Hw Hr)
      as (m0 & Hm0 & Hshape0 & _).
    destruct (sum_orbital_axis_of_vectors 0%float PrimFloat.add m0 r a o Hshape0)
      as (t & Ht & Ht_shape & _).
    assert (Htotal : total_moments 0%float PrimFloat.add raw steps selection = Ok (Some t)).
    { unfold total_moments.
      rewrite (noncollinear_moments_dispatch 0%float PrimFloat.add raw steps n a o selection
                 Hw Hcheck Hsel).
      rewrite Hm0. cbn. unfold _noncollinear, shape_at. rewrite Hs. cbn.
      rewrite Ht. reflexivity. }
    exists r, t.
    unfold _make_sure_moments_have_timestep_dimension. rewrite Hslice.
    destruct r as [k | lo st count]; cbn [negb];
      unfold _convert_moment_to_3d_vector, newaxis, ndim;
      cbn [shape]; rewrite Ht_shape; cbn;
      (eexists; split; [exact Hr |]; split; [exact Htotal |];
       split; [reflexivity |]; split; [cbn; try rewrite Ht_shape; reflexivity |]);
      apply Hmax; cbn; try rewrite Ht_shape; reflexivity.
Qed.

End Pipeline.

(** ** The order of doubles *)

Lemma SFcompare_refl (s : spec_float) :
  s <> S754_nan -> SFcompare s s = Some Eq.
Proof.
  destruct s as [sg | sg | | sg m e]; intros H; try (now elim H);
    destruct sg; cbn; try reflexivity;
    rewrite Z.compare_refl, Pos.compare_cont_refl; reflexivity.
Qed.



Lemma is_nan_spec (x : float) :
  PrimFloat.is_nan x = true <-> Prim2SF x = S754_nan.
Proof.
  unfold PrimFloat.is_nan. rewrite eqb_spec. unfold SFeqb. split.
  - destruct (Prim2SF x) as [s | s | | s m e] eqn:E; [| | reflexivity |];
      rewrite SFcompare_refl by discriminate; discriminate.
  - intros ->. reflexivity.
Qed.







(** Adding 0.0 changes no value: the sum compares equal to the operand, and
    is NaN exactly when the operand is. *)
Lemma add_zero_spec (x : float) :
  Prim2SF (x + 0)%float =
  match Prim2SF x with
  | S754_zero _ => S754_zero false
  | s => s
  end.
Proof.
  rewrite add_spec. change (Prim2SF 0%float) with (S754_zero false).
  unfold SF64add, SFadd.
  destruct (Prim2SF x) as [s | s | | s m e]; try destruct s; reflexivity.
Qed.

(** ** The maximum of the norms *)






Section DisplayClaims.

Variable raw : RawMagnetism float.
Variable steps : selector.
Variable selection : string.



End DisplayClaims.



(** ** Noncollinear data without orbital moments *)

(** Adding 0.0 gives the same number back. *)
Lemma same_number_add_zero (x : float) : same_number (x + 0)%float x = true.
Proof.
  unfold same_number.
  destruct (Prim2SF x) as [s | s | | s m e] eqn:E.
  - rewrite eqb_spec, add_zero_spec, E. reflexivity.
  - rewrite eqb_spec, add_zero_spec, E. destruct s; reflexivity.
  - replace (PrimFloat.is_nan x) with true by (symmetry; apply is_nan_spec, E).
    replace (PrimFloat.is_nan (x + 0)%float) with true
      by (symmetry; apply is_nan_spec; rewrite add_zero_spec, E; reflexivity).
    apply orb_true_r.
  - rewrite eqb_spec, add_zero_spec, E. unfold SFeqb.
    rewrite SFcompare_refl by discriminate. reflexivity.
Qed.

(** Adding 0.0 keeps even the bits, except that -0.0 becomes +0.0. *)
Lemma add_zero_same_bits (x : float) :
  Prim2SF x <> S754_zero true -> (x + 0)%float = x.
Proof.
  intros H. apply Prim2SF_inj. rewrite add_zero_spec.
  destruct (Prim2SF x) as [[|] | s | | s m e]; try reflexivity.
  elim H. reflexivity.
Qed.

(** C7.  For noncollinear float64 data without orbital moments and every
    step selection that passes the bounds check, [moments("total")] equals
    [moments("spin")]: the two arrays have one shape and every element of
    the total is the same number as the spin element at the same index.  The
    orbital contribution is an array of zeros of the same shape, so each
    element of the total is the spin element plus 0.0; the bits agree too,
    unless the spin element is -0.0, whose sum with 0.0 is +0.0.
    [moments("orbital")] raises NoData with the advice to rerun with LORBMOM
    and LSORBIT. *)
Theorem noncollinear_without_orbital (raw : RawMagnetism float)
  (steps : selector) (n a o : nat) :
  well_shaped raw n 4 a o ->
  orbital_moments raw = None ->
  _raise_error_if_steps_out_of_bounds 0%float raw steps = Ok tt ->
  exists total spin,
    moments 0%float PrimFloat.add raw steps "total" = Ok (Some total) /\
    moments 0%float PrimFloat.add raw steps "spin" = Ok (Some spin) /\
    shape total = shape spin /\
    (forall idx,
        in_range (shape total) idx ->
        same_number (get total idx) (get spin idx) = true) /\
    (forall idx,
        in_range (shape total) idx ->
        get total idx = (get spin idx + 0)%float) /\
    (forall idx,
        in_range (shape total) idx ->
        Prim2SF (get spin idx) <> S754_zero true ->
        get total idx = get spin idx) /\
    moments 0%float PrimFloat.add raw steps "orbital" =
      Raise (NoData no_orbital_message) /\
    Substring "run the calculation with LORBMOM = T and LSORBIT = T"
      no_orbital_message.
Proof.
  intros Hw Hom Hcheck.
  destruct (proj1 (steps_check_passes 0%float raw steps n 4 a o Hw) Hcheck) as [r Hr].
  destruct (noncollinear_moments_spec 0%float PrimFloat.add raw steps n a o r
              "total" Hw Hr)
    as (total & Ht & Ht_shape & Ht_get).
  destruct (noncollinear_moments_spec 0%float PrimFloat.add raw steps n a o r
              "spin" Hw Hr)
    as (spin & Hsp & Hsp_shape & Hsp_get).
  rewrite Hom in Ht_get, Hsp_get. cbn in Ht_get, Hsp_get.
  assert (Hsum : forall idx,
             in_range (shape total) idx ->
             get total idx = (get spin idx + 0)%float).
  { intros idx Hidx. rewrite Ht_shape in Hidx.
    destruct (in_range_lead r _ idx Hidx) as (j & rest & -> & Hrest).
    destruct (in_range_three a o 3 rest Hrest) as (x & y & d & ->).
    rewrite Ht_get, Hsp_get. reflexivity. }
  exists total, spin.
  rewrite !(noncollinear_moments_dispatch 0%float PrimFloat.add raw steps n a o) by
    (try assumption; reflexivity).
  rewrite Ht, Hsp. cbn [bind].
  split; [reflexivity |]. split; [reflexivity |]. split; [congruence |].
  split; [| split; [exact Hsum | split; [| split]]].
  - intros idx Hidx. rewrite (Hsum idx Hidx). apply same_number_add_zero.
  - intros idx Hidx Hbits. rewrite (Hsum idx Hidx). apply add_zero_same_bits, Hbits.
  - unfold moments. rewrite Hcheck. cbn [bind].
    rewrite available_orbital, Hom. reflexivity.
  - exists "There are no orbital moments in the VASP output. Please make sure that you "%string,
      "."%string.
    reflexivity.
Qed.

Lemma noncollinear_without_orbital_witness :
  exists total spin,
    moments 0%float PrimFloat.add Samples.signed_zero (Index 0) "total" =
      Ok (Some total) /\
    moments 0%float PrimFloat.add Samples.signed_zero (Index 0) "spin" =
      Ok (Some spin) /\
    shape total = shape spin /\
    (forall idx,
        in_range (shape total) idx ->
        same_number (get total idx) (get spin idx) = true) /\
    flat spin = [1; 0; -1; neg_zero; 0.5; 0.25]%float /\
    flat total = [1; 0; -1; 0; 0.5; 0.25]%float /\
    Prim2SF (get spin [1; 0; 0]%nat) = S754_zero true /\
    Prim2SF (get total [1; 0; 0]%nat) = S754_zero false /\
    moments 0%float PrimFloat.add Samples.signed_zero (Index 0) "orbital" =
      Raise (NoData no_orbital_message).
Proof.
  destruct (noncollinear_without_orbital Samples.signed_zero (Index 0) 1 2 1)
    as (total & spin & Ht & Hsp & Hshape & Hsame & _ & _ & Hor & _).
  - split; reflexivity.
  - reflexivity.
  - reflexivity.
  - pose (chosen := fun selection =>
            match moments 0%float PrimFloat.add Samples.signed_zero (Index 0)
                    selection with
            | Ok (Some m) => m
            | _ => zeros 0%float []
            end).
    assert (Et : total = chosen "total"%string) by (unfold chosen; rewrite Ht; reflexivity).
    assert (Es : spin = chosen "spin"%string) by (unfold chosen; rewrite Hsp; reflexivity).
    exists total, spin.
    split; [exact Ht |]. split; [exact Hsp |]. split; [exact Hshape |].
    split; [exact Hsame |].
    rewrite Et, Es.
    split; [vm_compute; reflexivity |]. split; [vm_compute; reflexivity |].
    split; [vm_compute; reflexivity |]. split; [vm_compute; reflexivity |].
    exact Hor.
Defined.

(* ================================================================== *)
(** * Further properties of the accessors *)
(* ================================================================== *)

(** ** The order of the additions in a sum *)

Section Summation.

Context {T : Type}.
Variable zero : T.
Variable add : T -> T -> T.

(** A lane of fewer than eight elements is added up from left to right. *)
Lemma sum_lane_short (l : list T) :
  length l < 8 -> sum_lane zero add l = fold_left add l zero.
Proof.
  intros H. unfold sum_lane.
  destruct (length l) as [| k] eqn:E; cbn [pairwise_sum]; rewrite E;
    rewrite (proj2 (Nat.ltb_lt _ _) H); reflexivity.
Qed.

(** Eight elements are added in pairs, the pairs in pairs. *)
Lemma sum_lane_eight (x0 x1 x2 x3 x4 x5 x6 x7 : T) :
  sum_lane zero add [x0; x1; x2; x3; x4; x5; x6; x7] =
  add (add (add x0 x1) (add x2 x3)) (add (add x4 x5) (add x6 x7)).
Proof. reflexivity. Qed.

Lemma half_bounds (k : nat) :
  128 < k -> 0 < k / 2 - (k / 2) mod 8 < k.
Proof.
  intros H.
  pose proof (Nat.div_mod_eq k 2) as E.
  pose proof (Nat.mod_upper_bound k 2 ltac:(discriminate)) as B.
  pose proof (Nat.mod_upper_bound (k / 2) 8 ltac:(discriminate)) as B8.
  lia.
Qed.

(** The recursion never runs out of fuel: every bound from the length of
    the lane on gives the same sum. *)
Lemma pairwise_sum_fuel (fuel1 : nat) :
  forall fuel2 l,
    length l <= fuel1 -> length l <= fuel2 ->
    pairwise_sum zero add fuel1 l = pairwise_sum zero add fuel2 l.
Proof.
  induction fuel1 as [| f IH]; intros fuel2 l H1 H2.
  - assert (E : (length l <? 8) = true) by (apply Nat.ltb_lt; lia).
    destruct fuel2; cbn [pairwise_sum]; rewrite E; reflexivity.
  - destruct fuel2 as [| g].
    + assert (E : (length l <? 8) = true) by (apply Nat.ltb_lt; lia).
      cbn [pairwise_sum]. rewrite E. reflexivity.
    + cbn [pairwise_sum].
      destruct (length l <? 8) eqn:E8; [reflexivity |].
      destruct (length l <=? 128) eqn:E128; [reflexivity |].
      apply Nat.leb_gt in E128. pose proof (half_bounds (length l) E128) as Hh.
      cbv zeta.
      f_equal; apply IH; rewrite ?length_firstn, ?length_skipn; lia.
Qed.

(** A lane of more than 128 elements is the sum of its two parts, split at
    a multiple of eight near the middle. *)
Lemma sum_lane_split (l : list T) :
  128 < length l ->
  let half := length l / 2 - (length l / 2) mod 8 in
  sum_lane zero add l =
  add (sum_lane zero add (firstn half l)) (sum_lane zero add (skipn half l)).
Proof.
  intros H half. pose proof (half_bounds (length l) H) as Hh. fold half in Hh.
  unfold sum_lane at 1.
  destruct (length l) as [| k] eqn:E; [lia |].
  cbn [pairwise_sum]. rewrite E.
  replace (S k <? 8) with false by (symmetry; apply Nat.ltb_ge; lia).
  replace (S k <=? 128) with false by (symmetry; apply Nat.leb_gt; lia).
  cbv zeta. fold half. unfold sum_lane.
  f_equal; apply pairwise_sum_fuel; rewrite ?length_firstn, ?length_skipn; lia.
Qed.

End Summation.

Section Accessors.

Context {T : Type}.
Variable zero : T.
Variable add : T -> T -> T.

(** What [total_moments] returns in the collinear regime. *)
Lemma total_moments_collinear_spec (raw : RawMagnetism T) (steps : selector)
  (n a o : nat) (r : resolved) (selection : string) :
  well_shaped raw n 2 a o ->
  resolve n steps = Ok r ->
  _raise_error_if_selection_not_available raw selection = Ok tt ->
  exists t,
    total_moments zero add raw steps selection = Ok (Some t) /\
    shape t = lead_shape r ++ [a] /\
    forall j x,
      get t (lead r j ++ [x]) =
      sum_lane zero add
        (map (fun y => get (spin_moments raw) [step_of r j; 1; x; y]) (seq 0 o)).
Proof.
  intros Hw Hr Hsel. pose proof Hw as [Hs _].
  pose proof (proj2 (steps_check_passes zero raw steps n 2 a o Hw)
                (ex_intro _ r Hr)) as Hcheck.
  destruct (collinear_slice raw steps n 0 a o r Hs Hr) as (m & Hm & Hshape & Hget).
  destruct (sum_last_axis zero add m r a o Hshape) as (t & Ht & Ht_shape & Ht_get).
  exists t. split; [| split; [exact Ht_shape |]].
  - unfold total_moments, moments. rewrite Hcheck, Hsel. cbn.
    unfold _only_charge, _spin_polarized, _noncollinear, shape_at. rewrite Hs. cbn.
    rewrite Hm. cbn. rewrite Ht. reflexivity.
  - intros j x. rewrite Ht_get. f_equal. apply map_ext. intros y. apply Hget.
Qed.

(** What [total_moments] returns in the noncollinear regime. *)
Lemma total_moments_noncollinear_spec (raw : RawMagnetism T) (steps : selector)
  (n a o : nat) (r : resolved) (selection : string) :
  well_shaped raw n 4 a o ->
  resolve n steps = Ok r ->
  _raise_error_if_selection_not_available raw selection = Ok tt ->
  exists t,
    total_moments zero add raw steps selection = Ok (Some t) /\
    shape t = lead_shape r ++ [a; 3] /\
    forall j x d,
      get t (lead r j ++ [x; d]) =
      sum_lane zero add
        (map (fun y =>
                combine add selection
                  (get (spin_moments raw) [step_of r j; S d; x; y])
                  (match orbital_moments raw with
                   | Some om => get om [step_of r j; S d; x; y]
                   | None => zero
                   end))
             (seq 0 o)).
Proof.
  intros Hw Hr Hsel. pose proof Hw as [Hs _].
  pose proof (proj2 (steps_check_passes zero raw steps n 4 a o Hw)
                (ex_intro _ r Hr)) as Hcheck.
  destruct (noncollinear_moments_spec zero add raw steps n a o r selection Hw Hr)
    as (m & Hm & Hshape & Hget).
  destruct (sum_orbital_axis_of_vectors zero add m r a o Hshape)
    as (t & Ht & Ht_shape & Ht_get).
  exists t. split; [| split; [exact Ht_shape |]].
  - unfold total_moments.
    rewrite (noncollinear_moments_dispatch zero add raw steps n a o selection
               Hw Hcheck Hsel).
    rewrite Hm. cbn. unfold _noncollinear, shape_at. rewrite Hs. cbn.
    rewrite Ht. reflexivity.
  - intros j x d. rewrite Ht_get. f_equal. apply map_ext. intros y. apply Hget.
Qed.

(** X1.  [charges] returns component 0 of [spin_moments] for the selected
    steps, whatever the regime and whether or not orbital moments exist: the
    element for a selected step, an atom and an orbital is the raw entry of
    that step, and every selected step is a step of the raw data. *)
Theorem charges_are_component_zero (raw : RawMagnetism T) (steps : selector)
  (n c a o : nat) :
  well_shaped raw n (S c) a o ->
  _raise_error_if_steps_out_of_bounds zero raw steps = Ok tt ->
  exists r q,
    resolve n steps = Ok r /\
    charges zero raw steps = Ok q /\
    shape q = lead_shape r ++ [a; o] /\
    (forall j, j < count_of r -> step_of r j < n) /\
    forall j x y,
      get q (lead r j ++ [x; y]) = get (spin_moments raw) [step_of r j; 0; x; y].
Proof.
  intros Hw Hcheck.
  destruct (proj1 (steps_check_passes zero raw steps n (S c) a o Hw) Hcheck) as [r Hr].
  destruct Hw as [Hs _].
  destruct (charges_spec zero raw steps n c a o r Hs Hr) as (q & Hq & _ & Hshape & Hget).
  exists r, q. repeat split; try assumption.
  apply (selected_steps_in_axis n steps r Hr).
Qed.

(** X2.  On collinear data [total_moments] returns, for every selection
    that passes validation, one number per selected step and atom: the sum
    over the orbitals (the last axis of the moments) of component 1 of
    [spin_moments].  With fewer than eight orbitals the entries are added
    from left to right, starting from zero; from eight orbitals on NumPy
    adds them in the order of its pairwise summation. *)
Theorem total_moments_collinear_sum_over_orbitals (raw : RawMagnetism T)
  (steps : selector) (n a o : nat) (selection : string) :
  well_shaped raw n 2 a o ->
  _raise_error_if_steps_out_of_bounds zero raw steps = Ok tt ->
  _raise_error_if_selection_not_available raw selection = Ok tt ->
  exists r t,
    resolve n steps = Ok r /\
    total_moments zero add raw steps selection = Ok (Some t) /\
    shape t = lead_shape r ++ [a] /\
    (forall j, j < count_of r -> step_of r j < n) /\
    forall j x,
      get t (lead r j ++ [x]) =
      sum_lane zero add
        (map (fun y => get (spin_moments raw) [step_of r j; 1; x; y]) (seq 0 o)) /\
      (o < 8 ->
       get t (lead r j ++ [x]) =
       fold_left add
         (map (fun y => get (spin_moments raw) [step_of r j; 1; x; y]) (seq 0 o))
         zero).
Proof.
  intros Hw Hcheck Hsel.
  destruct (proj1 (steps_check_passes zero raw steps n 2 a o Hw) Hcheck) as [r Hr].
  destruct (total_moments_collinear_spec raw steps n a o r selection Hw Hr Hsel)
    as (t & Ht & Hshape & Hget).
  exists r, t.
  split; [exact Hr |]. split; [exact Ht |]. split; [exact Hshape |].
  split; [apply (selected_steps_in_axis n steps r Hr) |].
  intros j x. split; [apply Hget |].
  intros Ho. rewrite Hget. apply sum_lane_short.
  rewrite length_map, length_seq. exact Ho.
Qed.

(** X3.  On noncollinear data [total_moments] sums the second-to-last axis
    of the moments, the orbitals, and keeps the direction as last axis: the
    result has one 3-vector per selected step and atom, each component the
    sum over the orbitals of the selected contribution (spin, orbital, or
    their sum; a missing orbital contribution counts as zero).  With fewer
    than eight orbitals the entries are added from left to right, starting
    from zero. *)
Theorem total_moments_noncollinear_sum_over_orbitals (raw : RawMagnetism T)
  (steps : selector) (n a o : nat) (selection : string) :
  well_shaped raw n 4 a o ->
  _raise_error_if_steps_out_of_bounds zero raw steps = Ok tt ->
  _raise_error_if_selection_not_available raw selection = Ok tt ->
  exists r t,
    resolve n steps = Ok r /\
    total_moments zero add raw steps selection = Ok (Some t) /\
    shape t = lead_shape r ++ [a; 3] /\
    (forall j, j < count_of r -> step_of r j < n) /\
    forall j x d,
      get t (lead r j ++ [x; d]) =
      sum_lane zero add
        (map (fun y =>
                combine add selection
                  (get (spin_moments raw) [step_of r j; S d; x; y])
                  (match orbital_moments raw with
                   | Some om => get om [step_of r j; S d; x; y]
                   | None => zero
                   end))
             (seq 0 o)) /\
      (o < 8 ->
       get t (lead r j ++ [x; d]) =
       fold_left add
         (map (fun y =>
                 combine add selection
                   (get (spin_moments raw) [step_of r j; S d; x; y])
                   (match orbital_moments raw with
                    | Some om => get om [step_of r j; S d; x; y]
                    | None => zero
                    end))
              (seq 0 o))
         zero).
Proof.
  intros Hw Hcheck Hsel.
  destruct (proj1 (steps_check_passes zero raw steps n 4 a o Hw) Hcheck) as [r Hr].
  destruct (total_moments_noncollinear_spec raw steps n a o r selection Hw Hr Hsel)
    as (t & Ht & Hshape & Hget).
  exists r, t.
  split; [exact Hr |]. split; [exact Ht |]. split; [exact Hshape |].
  split; [apply (selected_steps_in_axis n steps r Hr) |].
  intros j x d. split; [apply Hget |].
  intros Ho. rewrite Hget. apply sum_lane_short.
  rewrite length_map, length_seq. exact Ho.
Qed.

End Accessors.

(** ** Slices against single steps, and the outcomes of the bounds check *)

Lemma normalize_index_position (n : nat) (z : Z) :
  (0 <= z < Z.of_nat n)%Z -> normalize_index n z = Ok (Z.to_nat z).
Proof.
  intros Hz. rewrite normalize_index_in_bounds. unfold index_in_bounds.
  replace ((- Z.of_nat n <=? z)%Z) with true by (symmetry; apply Z.leb_le; lia).
  replace ((z <? Z.of_nat n)%Z) with true by (symmetry; apply Z.ltb_lt; lia).
  replace ((z <? 0)%Z) with false by (symmetry; apply Z.ltb_ge; lia).
  reflexivity.
Qed.

Lemma tail_slice_indices (c : nat) :
  slice_indices (S c) (Some 1%Z) None None = Ok (1%Z, 1%Z, c).
Proof.
  unfold slice_indices, adjust_bound.
  change ((1 =? 0)%Z) with false. change ((1 <? 0)%Z) with false. cbv iota.
  destruct c as [| c].
  - reflexivity.
  - replace ((Z.of_nat (S (S c)) <=? 1)%Z) with false by (symmetry; apply Z.leb_gt; lia).
    replace ((1 <? Z.of_nat (S (S c)))%Z) with true by (symmetry; apply Z.ltb_lt; lia).
    rewrite Z.div_1_r. do 2 f_equal. lia.
Qed.

Section Slicing.

Context {T : Type}.
Variable zero : T.
Variable add : T -> T -> T.

(** [arr[steps, 1:]] for any number of components: every component but the
    charge, still in front of the atoms and orbitals. *)
Lemma components_slice (arr : ndarray T) (steps : selector) (n c a o : nat)
  (r : resolved) :
  shape arr = [n; S c; a; o] ->
  resolve n steps = Ok r ->
  exists part,
    getitem arr [steps; Slice (Some 1%Z) None None] = Ok part /\
    shape part = lead_shape r ++ [c; a; o] /\
    forall j d x y,
      get part (lead r j ++ [d; x; y]) = get arr [step_of r j; S d; x; y].
Proof.
  intros Hs Hr. unfold getitem. rewrite Hs.
  destruct (resolve_inv n steps r Hr)
    as [(i & k & -> & E & ->) | (b & e & st & lo & s & count & -> & E & ->)];
    cbn [getitem_plan]; rewrite E, tail_slice_indices;
    cbn -[Z.add Z.mul Z.of_nat Z.to_nat];
    (eexists; split; [reflexivity | split; [reflexivity |]]);
    intros j d x y; cbn -[Z.add Z.mul Z.of_nat Z.to_nat];
    rewrite tail_position; reflexivity.
Qed.

Lemma relocate_components (part : ndarray T) (r : resolved) (c a o : nat) :
  shape part = lead_shape r ++ [c; a; o] ->
  exists m,
    moveaxis part (if Nat.eqb (ndim part) 4 then 1%Z else 0%Z) (-1) = Ok m /\
    shape m = lead_shape r ++ [a; o; c] /\
    forall j x y d,
      get m (lead r j ++ [x; y; d]) = get part (lead r j ++ [d; x; y]).
Proof.
  intros Hs. unfold moveaxis, ndim. rewrite Hs.
  destruct r as [k | lo st count]; cbn;
    (eexists; split; [reflexivity |]);
    unfold transpose, ndim; rewrite Hs; cbn; split; reflexivity.
Qed.

(** X4.  Slicing agrees with indexing: the [j]-th step of the charges of a
    slice is the charges of the single step the slice selects at position
    [j], which is an accepted index. *)
Theorem charges_of_slice_are_charges_of_its_steps (raw : RawMagnetism T)
  (n c a o : nat) (b e st : option Z) (lo s : Z) (count j : nat) :
  well_shaped raw n (S c) a o ->
  slice_indices n b e st = Ok (lo, s, count) ->
  j < count ->
  exists whole one,
    charges zero raw (Slice b e st) = Ok whole /\
    charges zero raw (Index (lo + Z.of_nat j * s)) = Ok one /\
    shape whole = count :: shape one /\
    forall x y, get whole [j; x; y] = get one [x; y].
Proof.
  intros [Hs _] Hslice Hj.
  assert (Hmany : resolve n (Slice b e st) = Ok (ManySteps lo s count)).
  { cbn. rewrite Hslice. reflexivity. }
  pose proof (slice_positions_in_axis n b e st lo s count Hslice j Hj) as Hpos.
  assert (Hone : resolve n (Index (lo + Z.of_nat j * s))
                 = Ok (OneStep (Z.to_nat (lo + Z.of_nat j * s)))).
  { cbn -[Z.add Z.mul]. rewrite (normalize_index_position n _ Hpos). reflexivity. }
  destruct (charges_spec zero raw _ n c a o _ Hs Hmany)
    as (whole & Hwhole & _ & Hwhole_shape & Hwhole_get).
  destruct (charges_spec zero raw _ n c a o _ Hs Hone)
    as (one & Hq & _ & Hone_shape & Hone_get).
  exists whole, one. split; [exact Hwhole |]. split; [exact Hq |].
  split; [rewrite Hwhole_shape, Hone_shape; reflexivity |].
  intros x y.
  rewrite (Hwhole_get j x y : get whole [j; x; y] = _).
  rewrite (Hone_get 0 x y : get one [x; y] = _). reflexivity.
Qed.

(** X5.  The same for [moments] on collinear and noncollinear data: the
    [j]-th step of the moments of a slice is the moments of the single step
    the slice selects at position [j], for every selection that passes
    validation. *)
Theorem moments_of_slice_are_moments_of_its_steps (raw : RawMagnetism T)
  (n c a o : nat) (b e st : option Z) (lo s : Z) (count j : nat)
  (selection : string) :
  well_shaped raw n c a o ->
  c = 2 \/ c = 4 ->
  _raise_error_if_selection_not_available raw selection = Ok tt ->
  slice_indices n b e st = Ok (lo, s, count) ->
  j < count ->
  exists whole one,
    moments zero add raw (Slice b e st) selection = Ok (Some whole) /\
    moments zero add raw (Index (lo + Z.of_nat j * s)) selection = Ok (Some one) /\
    shape whole = count :: shape one /\
    (c = 2 -> forall x y, get whole [j; x; y] = get one [x; y]) /\
    (c = 4 -> forall x y d, get whole [j; x; y; d] = get one [x; y; d]).
Proof.
  intros Hw Hc Hsel Hslice Hj.
  assert (Hmany : resolve n (Slice b e st) = Ok (ManySteps lo s count)).
  { cbn. rewrite Hslice. reflexivity. }
  pose proof (slice_positions_in_axis n b e st lo s count Hslice j Hj) as Hpos.
  assert (Hone : resolve n (Index (lo + Z.of_nat j * s))
                 = Ok (OneStep (Z.to_nat (lo + Z.of_nat j * s)))).
  { cbn -[Z.add Z.mul]. rewrite (normalize_index_position n _ Hpos). reflexivity. }
  pose proof (proj2 (steps_check_passes zero raw _ n c a o Hw)
                (ex_intro _ _ Hmany)) as Hcheck_many.
  pose proof (proj2 (steps_check_passes zero raw _ n c a o Hw)
                (ex_intro _ _ Hone)) as Hcheck_one.
  pose proof Hw as [Hs _].
  destruct Hc as [-> | ->].
  - destruct (collinear_slice raw _ n 0 a o _ Hs Hmany)
      as (whole & Hwhole & Hwhole_shape & Hwhole_get).
    destruct (collinear_slice raw _ n 0 a o _ Hs Hone)
      as (one & Hq & Hone_shape & Hone_get).
    exists whole, one.
    split.
    { unfold moments. rewrite Hcheck_many, Hsel. cbn.
      unfold _only_charge, _spin_polarized, shape_at. rewrite Hs. cbn.
      rewrite Hwhole. reflexivity. }
    split.
    { unfold moments. rewrite Hcheck_one, Hsel. cbn -[Z.add Z.mul].
      unfold _only_charge, _spin_polarized, shape_at. rewrite Hs. cbn -[Z.add Z.mul].
      rewrite Hq. reflexivity. }
    split; [rewrite Hwhole_shape, Hone_shape; reflexivity |].
    split; [| discriminate].
    intros _ x y.
    rewrite (Hwhole_get j x y : get whole [j; x; y] = _).
    rewrite (Hone_get 0 x y : get one [x; y] = _). reflexivity.
  - destruct (noncollinear_moments_spec zero add raw _ n a o _ selection Hw Hmany)
      as (whole & Hwhole & Hwhole_shape & Hwhole_get).
    destruct (noncollinear_moments_spec zero add raw _ n a o _ selection Hw Hone)
      as (one & Hq & Hone_shape & Hone_get).
    exists whole, one.
    split.
    { rewrite (noncollinear_moments_dispatch zero add raw _ n a o selection
                 Hw Hcheck_many Hsel).
      rewrite Hwhole. reflexivity. }
    split.
    { rewrite (noncollinear_moments_dispatch zero add raw _ n a o selection
                 Hw Hcheck_one Hsel).
      rewrite Hq. reflexivity. }
    split; [rewrite Hwhole_shape, Hone_shape; reflexivity |].
    split; [discriminate |].
    intros _ x y d.
    rewrite (Hwhole_get j x y d : get whole [j; x; y; d] = _).
    rewrite (Hone_get 0 x y d : get one [x; y; d] = _). reflexivity.
Qed.

(** X6.  A slice whose step is zero is not translated into IncorrectUsage:
    the probe of the bounds check raises ValueError, which only an
    IndexError handler guards, so every accessor and [to_dict] raise
    ValueError. *)
Theorem zero_step_slice_raises_value_error (raw : RawMagnetism T)
  (n : nat) (rest : list nat) (b e : option Z) (selection : string) :
  shape (spin_moments raw) = n :: rest ->
  _raise_error_if_steps_out_of_bounds zero raw (Slice b e (Some 0%Z))
    = Raise ValueError /\
  charges zero raw (Slice b e (Some 0%Z)) = Raise ValueError /\
  total_charges zero add raw (Slice b e (Some 0%Z)) = Raise ValueError /\
  moments zero add raw (Slice b e (Some 0%Z)) selection = Raise ValueError /\
  total_moments zero add raw (Slice b e (Some 0%Z)) selection = Raise ValueError /\
  to_dict zero add raw (Slice b e (Some 0%Z)) = Raise ValueError.
Proof.
  intros Hs.
  assert (Hcheck : _raise_error_if_steps_out_of_bounds zero raw (Slice b e (Some 0%Z))
                   = Raise ValueError).
  { rewrite (steps_check_verdict zero raw _ n rest Hs). reflexivity. }
  assert (Hcharges : charges zero raw (Slice b e (Some 0%Z)) = Raise ValueError).
  { unfold charges. rewrite Hcheck. reflexivity. }
  assert (Hmoments : moments zero add raw (Slice b e (Some 0%Z)) selection
                     = Raise ValueError).
  { unfold moments. rewrite Hcheck. reflexivity. }
  repeat split; try assumption.
  - unfold total_charges. rewrite Hcharges. reflexivity.
  - unfold total_moments. rewrite Hmoments. reflexivity.
  - unfold to_dict. rewrite Hcharges. reflexivity.
Qed.

(** X7.  The bounds check has three outcomes: it passes, exactly for an
    integer in [-n, n) and for a slice whose step is not zero; it raises
    IncorrectUsage naming the selector; or it raises ValueError.  When it
    passes, every step the selector picks is a step of the raw data. *)
Theorem bounds_check_outcomes (raw : RawMagnetism T) (steps : selector)
  (n c a o : nat) :
  well_shaped raw n c a o ->
  (_raise_error_if_steps_out_of_bounds zero raw steps = Ok tt <-> accepted n steps) /\
  (_raise_error_if_steps_out_of_bounds zero raw steps = Ok tt \/
   _raise_error_if_steps_out_of_bounds zero raw steps =
     Raise (IncorrectUsage (steps_message steps)) \/
   _raise_error_if_steps_out_of_bounds zero raw steps = Raise ValueError) /\
  (_raise_error_if_steps_out_of_bounds zero raw steps = Ok tt ->
   exists r,
     resolve n steps = Ok r /\
     forall j, j < count_of r -> step_of r j < n).
Proof.
  intros Hw. pose proof (steps_check_passes zero raw steps n c a o Hw) as Hpass.
  split; [rewrite Hpass; symmetry; apply accepted_resolve |].
  split.
  - destruct Hw as [Hs _]. rewrite (steps_check_verdict zero raw steps n _ Hs).
    destruct (resolve n steps) as [r | err] eqn:E; [auto |].
    destruct (resolve_raises n steps err E) as [(i & _ & _ & ->) | (b & s & _ & ->)]; auto.
  - intros Hcheck. destruct (proj1 Hpass Hcheck) as [r Hr].
    exists r. split; [exact Hr | apply (selected_steps_in_axis n steps r Hr)].
Qed.

End Slicing.

(** ** Missing orbital moments, and the dictionary in every regime *)

Section Availability.

Context {T : Type}.
Variable zero : T.
Variable add : T -> T -> T.

(** In the three regimes nothing fails once both checks have passed. *)
Lemma moments_and_totals_return (raw : RawMagnetism T) (steps : selector)
  (n c a o : nat) (selection : string) :
  well_shaped raw n c a o ->
  c = 1 \/ c = 2 \/ c = 4 ->
  _raise_error_if_steps_out_of_bounds zero raw steps = Ok tt ->
  _raise_error_if_selection_not_available raw selection = Ok tt ->
  exists m t,
    moments zero add raw steps selection = Ok m /\
    total_moments zero add raw steps selection = Ok t.
Proof.
  intros Hw Hc Hcheck Hsel.
  destruct (proj1 (steps_check_passes zero raw steps n c a o Hw) Hcheck) as [r Hr].
  pose proof Hw as [Hs _].
  destruct Hc as [-> | [-> | ->]].
  - assert (Hm : moments zero add raw steps selection = Ok None).
    { unfold moments. rewrite Hcheck, Hsel. cbn.
      unfold _only_charge, shape_at. rewrite Hs. reflexivity. }
    exists None, None. split; [exact Hm |].
    unfold total_moments. rewrite Hm. cbn.
    unfold _noncollinear, shape_at. rewrite Hs. reflexivity.
  - destruct (collinear_slice raw steps n 0 a o r Hs Hr) as (m & Hm & _).
    destruct (total_moments_collinear_spec zero add raw steps n a o r selection
                Hw Hr Hsel) as (t & Ht & _).
    exists (Some m), (Some t). split; [| exact Ht].
    unfold moments. rewrite Hcheck, Hsel. cbn.
    unfold _only_charge, _spin_polarized, shape_at. rewrite Hs. cbn.
    rewrite Hm. reflexivity.
  - destruct (noncollinear_moments_spec zero add raw steps n a o r selection Hw Hr)
      as (m & Hm & _).
    destruct (total_moments_noncollinear_spec zero add raw steps n a o r selection
                Hw Hr Hsel) as (t & Ht & _).
    exists (Some m), (Some t). split; [| exact Ht].
    rewrite (noncollinear_moments_dispatch zero add raw steps n a o selection
               Hw Hcheck Hsel).
    rewrite Hm. reflexivity.
Qed.

Lemma selection_check_outcomes (raw : RawMagnetism T) (selection : string) :
  (_raise_error_if_selection_not_available raw selection = Ok tt /\
   (selection <> "orbital"%string \/ orbital_moments raw <> None)) \/
  (_raise_error_if_selection_not_available raw selection =
     Raise (IncorrectUsage (selection_message selection))) \/
  (_raise_error_if_selection_not_available raw selection =
     Raise (NoData no_orbital_message) /\
   selection = "orbital"%string /\ orbital_moments raw = None).
Proof.
  unfold _raise_error_if_selection_not_available, _has_orbital_moments.
  destruct (existsb (String.eqb selection) ["spin"; "orbital"; "total"]%string);
    cbn [negb]; [| auto].
  destruct (String.eqb selection "orbital") eqn:E.
  - apply String.eqb_eq in E. cbn [negb orb].
    destruct (orbital_moments raw) as [om |] eqn:Hom.
    + left. split; [reflexivity |]. right. discriminate.
    + right. right. auto.
  - apply String.eqb_neq in E. cbn [negb orb]. left. auto.
Qed.

(** X8.  In the three regimes and for accepted steps, [moments] and
    [total_moments] raise NoData exactly when the selection is "orbital" and
    the raw data holds no orbital moments, whatever the regime (also for
    charge-only and collinear data); the message is the advice to rerun
    with LORBMOM and LSORBIT. *)
Theorem no_data_exactly_for_missing_orbital_moments (raw : RawMagnetism T)
  (steps : selector) (n c a o : nat) (selection : string) :
  well_shaped raw n c a o ->
  c = 1 \/ c = 2 \/ c = 4 ->
  _raise_error_if_steps_out_of_bounds zero raw steps = Ok tt ->
  (forall msg,
      moments zero add raw steps selection = Raise (NoData msg) <->
      selection = "orbital"%string /\ orbital_moments raw = None /\
      msg = no_orbital_message) /\
  (forall msg,
      total_moments zero add raw steps selection = Raise (NoData msg) <->
      selection = "orbital"%string /\ orbital_moments raw = None /\
      msg = no_orbital_message).
Proof.
  intros Hw Hc Hcheck.
  assert (Hmoments : forall msg,
             moments zero add raw steps selection = Raise (NoData msg) <->
             selection = "orbital"%string /\ orbital_moments raw = None /\
             msg = no_orbital_message).
  { intros msg.
    destruct (selection_check_outcomes raw selection)
      as [[Hsel Havail] | [Hsel | (Hsel & Horb & Hnone)]].
    - destruct (moments_and_totals_return raw steps n c a o selection Hw Hc Hcheck Hsel)
        as (m & t & Hm & _).
      rewrite Hm. split; [discriminate |].
      intros (Horb & Hnone & _). destruct Havail; contradiction.
    - assert (Hm : moments zero add raw steps selection
                   = Raise (IncorrectUsage (selection_message selection))).
      { unfold moments. rewrite Hcheck, Hsel. reflexivity. }
      rewrite Hm. split; [discriminate |].
      intros (Horb & _). subst selection. rewrite available_orbital in Hsel.
      destruct (orbital_moments raw); discriminate.
    - assert (Hm : moments zero add raw steps selection
                   = Raise (NoData no_orbital_message)).
      { unfold moments. rewrite Hcheck, Hsel. reflexivity. }
      rewrite Hm. split.
      + intros H. inversion H. auto.
      + intros (_ & _ & ->). reflexivity. }
  split; [exact Hmoments |].
  intros msg. rewrite <- Hmoments. unfold total_moments.
  destruct (moments zero add raw steps selection) as [m | err] eqn:Hm.
  - split; [| discriminate]. cbn [bind]. intros H.
    destruct (selection_check_outcomes raw selection)
      as [[Hsel _] | [Hsel | (Hsel & _)]].
    + destruct (moments_and_totals_return raw steps n c a o selection Hw Hc Hcheck Hsel)
        as (m' & t & Hm' & Ht).
      unfold total_moments in Ht. rewrite Hm in Ht. cbn [bind] in Ht.
      rewrite Ht in H. discriminate.
    + unfold moments in Hm. rewrite Hcheck, Hsel in Hm. discriminate.
    + unfold moments in Hm. rewrite Hcheck, Hsel in Hm. discriminate.
  - reflexivity.
Qed.

(** The two extra entries of the dictionary, for any number of components. *)
Lemma extra_entries_spec (raw : RawMagnetism T) (steps : selector)
  (n c a o : nat) (r : resolved) (om : ndarray T) :
  well_shaped raw n (S c) a o ->
  orbital_moments raw = Some om ->
  resolve n steps = Ok r ->
  exists s ob,
    _add_spin_and_orbital_moments raw steps =
      Ok [("spin_moments"%string, Some s); ("orbital_moments"%string, Some ob)] /\
    shape s = lead_shape r ++ [a; o; c] /\
    shape ob = lead_shape r ++ [a; o; c] /\
    (forall j x y d,
        get s (lead r j ++ [x; y; d]) =
        get (spin_moments raw) [step_of r j; S d; x; y]) /\
    (forall j x y d,
        get ob (lead r j ++ [x; y; d]) = get om [step_of r j; S d; x; y]).
Proof.
  intros [Hs Ho] Hom Hr. rewrite Hom in Ho.
  unfold _add_spin_and_orbital_moments. rewrite Hom.
  destruct (components_slice (spin_moments raw) steps n c a o r Hs Hr)
    as (spin & -> & Hspin_shape & Hspin_get).
  destruct (components_slice om steps n c a o r Ho Hr)
    as (orbital & -> & Horb_shape & Horb_get).
  cbn [bind].
  destruct (relocate_components spin r c a o Hspin_shape) as (s & Hmove_s & Hs_shape & Hs_get).
  destruct (relocate_components orbital r c a o Horb_shape) as (ob & Hmove_o & Ho_shape & Ho_get).
  assert (Hrank : ndim orbital = ndim spin) by (unfold ndim; congruence).
  rewrite Hrank in Hmove_o.
  rewrite Hmove_s, Hmove_o. cbn [bind].
  exists s, ob. repeat split; try assumption.
  - intros. rewrite Hs_get. apply Hspin_get.
  - intros. rewrite Ho_get. apply Horb_get.
Qed.

(** X9.  In the three regimes and for accepted steps [to_dict] returns.
    Its keys are, in order, "charges" and "moments", followed by
    "spin_moments" and "orbital_moments" exactly when the raw data holds
    orbital moments; "charges" is what [charges] returns, "moments" what
    [moments] returns for the total selection, and the two extra entries
    hold every component but the charge of the two raw arrays, the component
    axis moved last (of length 0, 1 or 3 by regime). *)
Theorem to_dict_entries (raw : RawMagnetism T) (steps : selector)
  (n c a o : nat) :
  well_shaped raw n (S c) a o ->
  c = 0 \/ c = 1 \/ c = 3 ->
  _raise_error_if_steps_out_of_bounds zero raw steps = Ok tt ->
  exists r q m d,
    resolve n steps = Ok r /\
    charges zero raw steps = Ok q /\
    moments zero add raw steps "total" = Ok m /\
    to_dict zero add raw steps = Ok d /\
    lookup "charges" d = Some (Some q) /\
    lookup "moments" d = Some m /\
    match orbital_moments raw with
    | None => map fst d = ["charges"; "moments"]%string
    | Some om =>
        map fst d = ["charges"; "moments"; "spin_moments"; "orbital_moments"]%string /\
        exists s ob,
          lookup "spin_moments" d = Some (Some s) /\
          lookup "orbital_moments" d = Some (Some ob) /\
          shape s = lead_shape r ++ [a; o; c] /\
          shape ob = lead_shape r ++ [a; o; c] /\
          (forall j x y k,
              get s (lead r j ++ [x; y; k]) =
              get (spin_moments raw) [step_of r j; S k; x; y]) /\
          (forall j x y k,
              get ob (lead r j ++ [x; y; k]) = get om [step_of r j; S k; x; y])
    end.
Proof.
  intros Hw Hc Hcheck.
  destruct (proj1 (steps_check_passes zero raw steps n (S c) a o Hw) Hcheck) as [r Hr].
  pose proof Hw as [Hs _].
  destruct (charges_spec zero raw steps n c a o r Hs Hr) as (q & Hq & _).
  assert (Hregime : S c = 1 \/ S c = 2 \/ S c = 4) by lia.
  destruct (moments_and_totals_return raw steps n (S c) a o "total" Hw Hregime Hcheck
              (available_total raw)) as (m & _ & Hm & _).
  destruct (orbital_moments raw) as [om |] eqn:Hom.
  - destruct (extra_entries_spec raw steps n c a o r om Hw Hom Hr)
      as (s & ob & Hextra & Hs_shape & Hob_shape & Hs_get & Hob_get).
    exists r, q, m. eexists.
    split; [exact Hr |]. split; [exact Hq |]. split; [exact Hm |].
    split; [unfold to_dict; rewrite Hq; cbn [bind]; rewrite Hm; cbn [bind];
            rewrite Hextra; reflexivity |].
    split; [reflexivity |]. split; [reflexivity |]. split; [reflexivity |].
    exists s, ob. repeat split; assumption.
  - exists r, q, m. eexists.
    split; [exact Hr |]. split; [exact Hq |]. split; [exact Hm |].
    split; [unfold to_dict, _add_spin_and_orbital_moments;
            rewrite Hq; cbn [bind]; rewrite Hm; cbn [bind]; rewrite Hom;
            reflexivity |].
    repeat split; reflexivity.
Qed.

End Availability.

(* ================================================================== *)
(** * Further properties of the display and the report *)
(* ================================================================== *)

Lemma flat_map_nil {A B : Type} (l : list A) :
  flat_map (fun _ : A => @nil B) l = [].
Proof. induction l as [| x l IH]; cbn; [reflexivity | exact IH]. Qed.

Lemma indices_without_elements (count a : nat) :
  count = 0 \/ a = 0 -> indices [count; a] = [].
Proof.
  intros [-> | ->]; [reflexivity |]. cbn. apply flat_map_nil.
Qed.

Lemma indices_in_range (shp : list nat) :
  forall idx, In idx (indices shp) -> Forall2 lt idx shp.
Proof.
  induction shp as [| n shp IH]; intros idx Hin; cbn in Hin.
  - destruct Hin as [<- | []]. constructor.
  - apply in_flat_map in Hin as (i & Hi & Hin).
    apply in_map_iff in Hin as (rest & <- & Hrest).
    apply in_seq in Hi. constructor; [lia | apply IH, Hrest].
Qed.

Lemma add_from_zeros (l : list float) :
  Forall (fun v => v = 0%float) l -> add_from PrimFloat.add 0%float l = 0%float.
Proof.
  unfold add_from. induction 1 as [| v l Hv _ IH]; [reflexivity |].
  cbn [fold_left]. rewrite Hv. exact IH.
Qed.

Lemma add_pointwise_zeros (r g : list float) :
  Forall (fun v => v = 0%float) r -> Forall (fun v => v = 0%float) g ->
  Forall (fun v => v = 0%float) (add_pointwise PrimFloat.add r g).
Proof.
  intros Hr. revert g. induction Hr as [| x r Hx _ IH]; intros g Hg; [constructor |].
  destruct Hg as [| y g Hy Hg]; [constructor |].
  cbn [add_pointwise]. constructor; [rewrite Hx, Hy; reflexivity | apply IH, Hg].
Qed.

Lemma firstn_zeros (k : nat) (l : list float) :
  Forall (fun v => v = 0%float) l -> Forall (fun v => v = 0%float) (firstn k l).
Proof.
  intros H. apply Forall_forall. intros v Hv.
  apply (proj1 (Forall_forall _ _) H). eapply In_nth_error in Hv as [i Hi].
  apply nth_error_In with i. rewrite nth_error_firstn in Hi.
  destruct (i <? k); [exact Hi | discriminate].
Qed.

Lemma skipn_zeros (k : nat) (l : list float) :
  Forall (fun v => v = 0%float) l -> Forall (fun v => v = 0%float) (skipn k l).
Proof.
  intros H. apply Forall_forall. intros v Hv.
  apply (proj1 (Forall_forall _ _) H). rewrite <- (firstn_skipn k l).
  apply in_or_app. now right.
Qed.

Lemma accumulate_zeros (groups : nat) :
  forall r l,
    Forall (fun v => v = 0%float) r -> Forall (fun v => v = 0%float) l ->
    Forall (fun v => v = 0%float) (fst (accumulate PrimFloat.add groups r l)) /\
    Forall (fun v => v = 0%float) (snd (accumulate PrimFloat.add groups r l)).
Proof.
  induction groups as [| g IH]; intros r l Hr Hl; cbn [accumulate]; [auto |].
  apply IH; [apply add_pointwise_zeros; [exact Hr | apply firstn_zeros, Hl]
            | apply skipn_zeros, Hl].
Qed.

Lemma sum_block_zeros (l : list float) :
  Forall (fun v => v = 0%float) l -> sum_block 0%float PrimFloat.add l = 0%float.
Proof.
  intros Hl. unfold sum_block.
  destruct (accumulate_zeros (length l / 8 - 1) (firstn 8 l) (skipn 8 l)
              (firstn_zeros 8 l Hl) (skipn_zeros 8 l Hl)) as [Hr Hrest].
  destruct (accumulate PrimFloat.add (length l / 8 - 1) (firstn 8 l) (skipn 8 l))
    as [r rest]. cbn [fst snd] in *.
  do 8 (destruct r as [| ? r]; [apply add_from_zeros, Hl |]).
  destruct r as [| ? r]; [| apply add_from_zeros, Hl].
  repeat match goal with
         | H : Forall _ (_ :: _) |- _ => inversion H; subst; clear H
         end.
  exact (add_from_zeros rest Hrest).
Qed.

Lemma pairwise_sum_zeros (fuel : nat) :
  forall l,
    Forall (fun v => v = 0%float) l ->
    pairwise_sum 0%float PrimFloat.add fuel l = 0%float.
Proof.
  induction fuel as [| fuel IH]; intros l Hl; cbn [pairwise_sum];
    destruct (length l <? 8); try (apply add_from_zeros, Hl);
    destruct (length l <=? 128); try (apply sum_block_zeros, Hl).
  rewrite (IH _ (firstn_zeros _ l Hl)), (IH _ (skipn_zeros _ l Hl)). reflexivity.
Qed.

Lemma sum_lane_zeros (l : list float) :
  (forall v, In v l -> v = 0%float) ->
  sum_lane 0%float PrimFloat.add l = 0%float.
Proof.
  intros H. apply pairwise_sum_zeros, Forall_forall, H.
Qed.

Lemma maximum_zeros (l : list float) :
  (forall v, In v l -> v = 0%float) ->
  fold_left maximum l 0%float = 0%float.
Proof.
  induction l as [| v l IH]; intros H; [reflexivity |].
  cbn [fold_left]. rewrite (H v (or_introl eq_refl)).
  change (maximum 0 0) with 0%float. apply IH. intros w Hw. apply H. now right.
Qed.

(** The norms [_max_length_moments] takes the maximum of. *)
Lemma max_length_unfolded (m : ndarray float) (count a : nat) :
  shape m = [count; a; 3] ->
  _max_length_moments (Some m) =
  amax (mk_nd [count; a]
          (fun idx =>
             PrimFloat.sqrt
               (sum_lane 0%float PrimFloat.add
                  [(get m (insert_at 2 0%nat idx) * get m (insert_at 2 0%nat idx))%float;
                   (get m (insert_at 2 1%nat idx) * get m (insert_at 2 1%nat idx))%float;
                   (get m (insert_at 2 2%nat idx) * get m (insert_at 2 2%nat idx))%float]))).
Proof.
  intros Hm. unfold _max_length_moments, norm, ndim. rewrite Hm.
  cbn [length]. change (normalize_axis 3 2) with (@Ok nat 2).
  reflexivity.
Qed.

Lemma max_length_without_vectors (m : ndarray float) (count a : nat) :
  shape m = [count; a; 3] ->
  count = 0 \/ a = 0 ->
  _max_length_moments (Some m) = Raise ValueError.
Proof.
  intros Hm Hempty. rewrite (max_length_unfolded m count a Hm).
  unfold amax, flat. cbn [shape].
  rewrite (indices_without_elements count a Hempty). reflexivity.
Qed.

Lemma max_length_of_zero_vectors (m : ndarray float) (count a : nat) :
  shape m = [count; a; 3] ->
  0 < count -> 0 < a ->
  (forall j x k, j < count -> x < a -> k < 3 -> get m [j; x; k] = 0%float) ->
  _max_length_moments (Some m) = Ok 0%float.
Proof.
  intros Hm Hcount Ha Hzero. rewrite (max_length_unfolded m count a Hm).
  unfold amax, flat. cbn [shape get].
  rewrite (map_ext_in _ (fun _ => 0%float)).
  - destruct (indices [count; a]) as [| idx rest] eqn:E.
    + elim (indices_nonempty [count; a]); [repeat constructor; assumption | exact E].
    + cbn [map]. f_equal. apply maximum_zeros.
      intros v Hv. apply in_map_iff in Hv as (w & <- & _). reflexivity.
  - intros idx Hin. apply indices_in_range in Hin.
    inversion Hin as [| j ? r1 ? Hj H1]; subst.
    inversion H1 as [| x ? r2 ? Hx H2]; subst.
    inversion H2; subst. cbn [insert_at].
    rewrite !Hzero by lia. reflexivity.
Qed.

Section Promotion.

Variable steps : selector.

Lemma promoted_collinear_spec (n a : nat) (r : resolved) (t : ndarray float) :
  resolve n steps = Ok r ->
  shape t = lead_shape r ++ [a] ->
  exists m,
    _convert_moment_to_3d_vector
      (_make_sure_moments_have_timestep_dimension steps (Some t)) = Ok (Some m) /\
    shape m = [count_of r; a; 3] /\
    forall j x,
      j < count_of r -> x < a ->
      get m [j; x; 0] = 0%float /\
      get m [j; x; 1] = 0%float /\
      get m [j; x; 2] = get t (lead r j ++ [x]).
Proof.
  intros Hr Ht.
  pose proof (is_slice_resolved n steps r Hr) as Hslice.
  unfold _make_sure_moments_have_timestep_dimension. rewrite Hslice.
  destruct r as [k | lo st count]; cbn [negb];
    unfold _convert_moment_to_3d_vector, pad, reshape_append_one, newaxis, ndim;
    cbn [shape]; rewrite Ht; cbn [lead_shape app length Nat.eqb bind combine map];
    (eexists; split; [reflexivity |]; split; [cbn; rewrite ?Nat.add_0_r; reflexivity |]);
    intros j x Hj Hx; cbn [get shape unpad count_of lead app] in *.
  - assert (j = 0) by lia. subst j.
    replace (x <? 0 + a) with true by (symmetry; apply Nat.ltb_lt; lia).
    cbn. rewrite Nat.sub_0_r. auto.
  - replace (j <? 0 + count) with true by (symmetry; apply Nat.ltb_lt; lia).
    replace (x <? 0 + a) with true by (symmetry; apply Nat.ltb_lt; lia).
    cbn. rewrite !Nat.sub_0_r. auto.
Qed.

Lemma promoted_noncollinear_spec (n a : nat) (r : resolved) (t : ndarray float) :
  resolve n steps = Ok r ->
  shape t = lead_shape r ++ [a; 3] ->
  exists m,
    _convert_moment_to_3d_vector
      (_make_sure_moments_have_timestep_dimension steps (Some t)) = Ok (Some m) /\
    shape m = [count_of r; a; 3] /\
    forall j x d, get m [j; x; d] = get t (lead r j ++ [x; d]).
Proof.
  intros Hr Ht.
  pose proof (is_slice_resolved n steps r Hr) as Hslice.
  unfold _make_sure_moments_have_timestep_dimension. rewrite Hslice.
  destruct r as [k | lo st count]; cbn [negb];
    unfold _convert_moment_to_3d_vector, newaxis, ndim;
    cbn [shape]; rewrite Ht; cbn;
    (eexists; split; [reflexivity |]; split; [cbn; rewrite ?Ht; reflexivity |]);
    intros; reflexivity.
Qed.

End Promotion.

Section DisplayPipeline.

Variable raw : RawMagnetism float.
Variable steps : selector.
Variable selection : string.

(** The promoted moments of both regimes under one statement: the array
    handed to the norm, its shape, and whether all its entries vanish when
    the totals do. *)
Lemma promoted_spec (n c a o : nat) (r : resolved) :
  well_shaped raw n c a o ->
  c = 2 \/ c = 4 ->
  resolve n steps = Ok r ->
  _raise_error_if_selection_not_available raw selection = Ok tt ->
  exists t m,
    total_moments 0%float PrimFloat.add raw steps selection = Ok (Some t) /\
    _convert_moment_to_3d_vector
      (_make_sure_moments_have_timestep_dimension steps (Some t)) = Ok (Some m) /\
    shape m = [count_of r; a; 3] /\
    ((forall idx, in_range (shape t) idx -> get t idx = 0%float) ->
     forall j x k, j < count_of r -> x < a -> k < 3 -> get m [j; x; k] = 0%float).
Proof.
  intros Hw Hc Hr Hsel. destruct Hc as [-> | ->].
  - destruct (total_moments_collinear_spec 0%float PrimFloat.add raw steps n a o r
                selection Hw Hr Hsel) as (t & Ht & Ht_shape & _).
    destruct (promoted_collinear_spec steps n a r t Hr Ht_shape)
      as (m & Hm & Hm_shape & Hm_get).
    exists t, m. repeat split; try assumption.
    intros Hzero j x k Hj Hx Hk.
    destruct (Hm_get j x Hj Hx) as (H0 & H1 & H2).
    assert (Hcases : k = 0 \/ k = 1 \/ k = 2) by lia.
    destruct Hcases as [-> | [-> | ->]]; [exact H0 | exact H1 |].
    rewrite H2. apply Hzero. rewrite Ht_shape. unfold in_range.
    destruct r; cbn in *; repeat (apply Forall2_cons; [assumption |]);
      apply Forall2_nil.
  - destruct (total_moments_noncollinear_spec 0%float PrimFloat.add raw steps n a o r
                selection Hw Hr Hsel) as (t & Ht & Ht_shape & _).
    destruct (promoted_noncollinear_spec steps n a r t Hr Ht_shape)
      as (m & Hm & Hm_shape & Hm_get).
    exists t, m. repeat split; try assumption.
    intros Hzero j x k Hj Hx Hk. rewrite Hm_get.
    apply Hzero. rewrite Ht_shape. unfold in_range.
    destruct r; cbn in *; repeat (apply Forall2_cons; [assumption |]);
      apply Forall2_nil.
Qed.

(** X10.  Collinear moments are drawn along z: on collinear data the array
    whose norms are taken has one 3-vector per selected step and atom (a
    single step gets a step axis of length 1), with x and y zero and z the
    total moment of the atom. *)
Theorem collinear_moments_point_along_z (n a o : nat) :
  well_shaped raw n 2 a o ->
  _raise_error_if_steps_out_of_bounds 0%float raw steps = Ok tt ->
  _raise_error_if_selection_not_available raw selection = Ok tt ->
  exists r t m,
    resolve n steps = Ok r /\
    total_moments 0%float PrimFloat.add raw steps selection = Ok (Some t) /\
    _convert_moment_to_3d_vector
      (_make_sure_moments_have_timestep_dimension steps (Some t)) = Ok (Some m) /\
    shape m = [count_of r; a; 3] /\
    forall j x,
      j < count_of r -> x < a ->
      get m [j; x; 0] = 0%float /\
      get m [j; x; 1] = 0%float /\
      get m [j; x; 2] = get t (lead r j ++ [x]).
Proof.
  intros Hw Hcheck Hsel.
  destruct (proj1 (steps_check_passes 0%float raw steps n 2 a o Hw) Hcheck) as [r Hr].
  destruct (total_moments_collinear_spec 0%float PrimFloat.add raw steps n a o r
              selection Hw Hr Hsel) as (t & Ht & Ht_shape & _).
  destruct (promoted_collinear_spec steps n a r t Hr Ht_shape)
    as (m & Hm & Hm_shape & Hm_get).
  exists r, t, m. repeat split; try assumption; apply Hm_get; assumption.
Qed.

(** X11.  Noncollinear moments keep their direction: on noncollinear data
    the array whose norms are taken holds the total moments unchanged, one
    3-vector per selected step and atom, a single step having received a
    step axis of length 1. *)
Theorem noncollinear_moments_keep_direction (n a o : nat) :
  well_shaped raw n 4 a o ->
  _raise_error_if_steps_out_of_bounds 0%float raw steps = Ok tt ->
  _raise_error_if_selection_not_available raw selection = Ok tt ->
  exists r t m,
    resolve n steps = Ok r /\
    total_moments 0%float PrimFloat.add raw steps selection = Ok (Some t) /\
    _convert_moment_to_3d_vector
      (_make_sure_moments_have_timestep_dimension steps (Some t)) = Ok (Some m) /\
    shape t = lead_shape r ++ [a; 3] /\
    shape m = [count_of r; a; 3] /\
    forall j x d, get m [j; x; d] = get t (lead r j ++ [x; d]).
Proof.
  intros Hw Hcheck Hsel.
  destruct (proj1 (steps_check_passes 0%float raw steps n 4 a o Hw) Hcheck) as [r Hr].
  destruct (total_moments_noncollinear_spec 0%float PrimFloat.add raw steps n a o r
              selection Hw Hr Hsel) as (t & Ht & Ht_shape & _).
  destruct (promoted_noncollinear_spec steps n a r t Hr Ht_shape)
    as (m & Hm & Hm_shape & Hm_get).
  exists r, t, m. repeat split; assumption.
Qed.

(** X12.  Nothing to draw on: when the selection holds no step (a slice
    that selects none) or the structure no atom, the maximum norm is taken
    over an empty array, and display preparation raises ValueError instead
    of returning the absent value.  [to_view] then returns no view: it
    raises what the structure plot raised or, if that returned, the
    ValueError. *)
Theorem empty_selection_cannot_be_displayed (n c a o : nat) :
  well_shaped raw n c a o ->
  c = 2 \/ c = 4 ->
  _raise_error_if_steps_out_of_bounds 0%float raw steps = Ok tt ->
  _raise_error_if_selection_not_available raw selection = Ok tt ->
  exists r,
    resolve n steps = Ok r /\
    (count_of r = 0 \/ a = 0 ->
     _prepare_magnetic_moments_for_plotting raw steps selection = Raise ValueError /\
     forall (Scene : Type) (plot : result (View Scene)) (blue : string),
       to_view raw steps plot blue selection =
       match plot with
       | Ok _ => Raise ValueError
       | Raise e => Raise e
       end).
Proof.
  intros Hw Hc Hcheck Hsel.
  destruct (proj1 (steps_check_passes 0%float raw steps n c a o Hw) Hcheck) as [r Hr].
  destruct (promoted_spec n c a o r Hw Hc Hr Hsel) as (t & m & Ht & Hm & Hm_shape & _).
  exists r. split; [exact Hr |]. intros Hempty.
  assert (Hprepare : _prepare_magnetic_moments_for_plotting raw steps selection
                     = Raise ValueError).
  { unfold _prepare_magnetic_moments_for_plotting.
    rewrite Ht. cbn [bind]. rewrite Hm. cbn [bind].
    rewrite (max_length_without_vectors m (count_of r) a Hm_shape Hempty).
    reflexivity. }
  split; [exact Hprepare |].
  intros Scene plot blue. unfold to_view.
  destruct plot as [viewer | e]; cbn [bind]; [rewrite Hprepare |]; reflexivity.
Qed.

(** X13.  With at least one selected step and one atom, display preparation
    does not fail on collinear and noncollinear data: it returns the absent
    value or an array of one 3-vector per selected step and atom. *)
Theorem prepared_moments_are_vectors_per_step_and_atom (n c a o : nat) :
  well_shaped raw n c a o ->
  c = 2 \/ c = 4 ->
  _raise_error_if_steps_out_of_bounds 0%float raw steps = Ok tt ->
  _raise_error_if_selection_not_available raw selection = Ok tt ->
  exists r,
    resolve n steps = Ok r /\
    (0 < count_of r -> 0 < a ->
     _prepare_magnetic_moments_for_plotting raw steps selection = Ok None \/
     exists q,
       _prepare_magnetic_moments_for_plotting raw steps selection = Ok (Some q) /\
       shape q = [count_of r; a; 3]).
Proof.
  intros Hw Hc Hcheck Hsel.
  destruct (proj1 (steps_check_passes 0%float raw steps n c a o Hw) Hcheck) as [r Hr].
  destruct (promoted_spec n c a o r Hw Hc Hr Hsel) as (t & m & Ht & Hm & Hm_shape & _).
  exists r. split; [exact Hr |]. intros Hcount Ha.
  assert (HM : exists M, _max_length_moments (Some m) = Ok M).
  { rewrite (max_length_unfolded m (count_of r) a Hm_shape).
    unfold amax, flat. cbn [shape].
    destruct (indices [count_of r; a]) as [| idx rest] eqn:E.
    - elim (indices_nonempty [count_of r; a]); [repeat constructor; assumption | exact E].
    - cbn [map]. eauto. }
  destruct HM as [M HM].
  unfold _prepare_magnetic_moments_for_plotting.
  rewrite Ht. cbn [bind]. rewrite Hm. cbn [bind]. rewrite HM. cbn [bind].
  destruct (1e-15 <? M)%float; [right | left; reflexivity].
  eexists. split; reflexivity || exact Hm_shape.
Qed.

(** X14.  All-zero moments are not drawn: when every total moment of the
    selection is 0.0, with at least one selected step and atom, the maximum
    norm is 0.0, which does not exceed 1e-15, so display preparation returns
    the absent value and [to_view] hands the viewer back unchanged. *)
Theorem zero_moments_are_not_displayed (n c a o : nat)
  (t : ndarray float) :
  well_shaped raw n c a o ->
  c = 2 \/ c = 4 ->
  _raise_error_if_steps_out_of_bounds 0%float raw steps = Ok tt ->
  total_moments 0%float PrimFloat.add raw steps selection = Ok (Some t) ->
  (forall idx, in_range (shape t) idx -> get t idx = 0%float) ->
  exists r,
    resolve n steps = Ok r /\
    (0 < count_of r -> 0 < a ->
     _prepare_magnetic_moments_for_plotting raw steps selection = Ok None /\
     forall (Scene : Type) (viewer : View Scene) (blue : string),
       to_view raw steps (Ok viewer) blue selection = Ok viewer).
Proof.
  intros Hw Hc Hcheck Htotal Hzero.
  destruct (proj1 (steps_check_passes 0%float raw steps n c a o Hw) Hcheck) as [r Hr].
  assert (Hsel : _raise_error_if_selection_not_available raw selection = Ok tt).
  { unfold total_moments, moments in Htotal. rewrite Hcheck in Htotal. cbn [bind] in Htotal.
    destruct (_raise_error_if_selection_not_available raw selection) as [[] | err];
      [reflexivity | discriminate]. }
  destruct (promoted_spec n c a o r Hw Hc Hr Hsel)
    as (t' & m & Ht & Hm & Hm_shape & Hm_zero).
  assert (t' = t) by congruence. subst t'.
  exists r. split; [exact Hr |]. intros Hcount Ha.
  assert (Hprepare : _prepare_magnetic_moments_for_plotting raw steps selection
                     = Ok None).
  { unfold _prepare_magnetic_moments_for_plotting.
    rewrite Ht. cbn [bind]. rewrite Hm. cbn [bind].
    rewrite (max_length_of_zero_vectors m (count_of r) a Hm_shape Hcount Ha
               (Hm_zero Hzero)).
    reflexivity. }
  split; [exact Hprepare |].
  intros Scene viewer blue. unfold to_view. cbn [bind]. rewrite Hprepare. reflexivity.
Qed.

End DisplayPipeline.

Section Reports.

Variable raw : RawMagnetism float.
Variable steps : selector.

(** X15.  Charge-only data has nothing magnetic to show: for accepted
    steps the report is "not spin polarized", and for every selection that
    passes validation display preparation returns the absent value and
    [to_view] hands the viewer back unchanged. *)
Theorem unpolarized_report_and_view (n a o : nat) :
  well_shaped raw n 1 a o ->
  _raise_error_if_steps_out_of_bounds 0%float raw steps = Ok tt ->
  __str__ raw steps = Ok "not spin polarized"%string /\
  forall selection,
    _raise_error_if_selection_not_available raw selection = Ok tt ->
    _prepare_magnetic_moments_for_plotting raw steps selection = Ok None /\
    forall (Scene : Type) (viewer : View Scene) (blue : string),
      to_view raw steps (Ok viewer) blue selection = Ok viewer.
Proof.
  intros [Hs _] Hcheck.
  assert (Htotal : forall selection,
             _raise_error_if_selection_not_available raw selection = Ok tt ->
             total_moments 0%float PrimFloat.add raw steps selection = Ok None).
  { intros selection Hsel. unfold total_moments, moments.
    rewrite Hcheck, Hsel. cbn.
    unfold _only_charge, _noncollinear, shape_at. rewrite Hs. reflexivity. }
  split.
  - unfold __str__. rewrite (Htotal "total"%string (available_total raw)). reflexivity.
  - intros selection Hsel.
    assert (Hprepare : _prepare_magnetic_moments_for_plotting raw steps selection
                       = Ok None).
    { unfold _prepare_magnetic_moments_for_plotting.
      rewrite (Htotal selection Hsel). reflexivity. }
    split; [exact Hprepare |].
    intros Scene viewer blue. unfold to_view. cbn [bind]. rewrite Hprepare. reflexivity.
Qed.

(** X16.  The report of a single noncollinear step has one line per atom,
    each with the x, y and z component of the atom's total moment, the
    lines joined by a blank, a backslash, a line feed and nine blanks. *)
Theorem noncollinear_report_has_one_line_per_atom (n a o : nat) :
  well_shaped raw n 4 a o ->
  _raise_error_if_steps_out_of_bounds 0%float raw steps = Ok tt ->
  is_slice steps = false ->
  exists t,
    total_moments 0%float PrimFloat.add raw steps "total" = Ok (Some t) /\
    shape t = [a; 3] /\
    __str__ raw steps =
    Ok ("MAGMOM = "
          ++ String.concat (" \" ++ String "010"%char "         ")
               (map (fun x =>
                       String.concat " "
                         [format_2f (get t [x; 0]); format_2f (get t [x; 1]);
                          format_2f (get t [x; 2])])
                    (seq 0 a)))%string.
Proof.
  intros Hw Hcheck Hslice.
  destruct (proj1 (steps_check_passes 0%float raw steps n 4 a o Hw) Hcheck) as [r Hr].
  rewrite (is_slice_resolved n steps r Hr) in Hslice.
  destruct r as [k | lo st count]; [| discriminate].
  destruct (total_moments_noncollinear_spec 0%float PrimFloat.add raw steps n a o _
              "total" Hw Hr (available_total raw)) as (t & Ht & Ht_shape & _).
  cbn in Ht_shape.
  exists t. split; [exact Ht |]. split; [exact Ht_shape |].
  unfold __str__. rewrite Ht. cbn [bind].
  unfold ndim, iterate. rewrite Ht_shape. cbn [length Nat.eqb bind].
  rewrite (map_result_ok moments_to_string
             (fun vec => String.concat " "
                           (map (fun j => format_2f (get vec [j])) (seq 0 3)))).
  - rewrite map_map. reflexivity.
  - intros vec Hin. apply in_map_iff in Hin as (i & <- & _).
    apply moments_to_string_vector. reflexivity.
Qed.

(** X17.  The report cannot print several noncollinear steps: for a slice
    that selects at least one step of a structure with at least one atom,
    the entries to format are arrays and the report raises TypeError; a
    slice that selects no step gives the bare prefix. *)
Theorem noncollinear_report_of_slice (n a o : nat) :
  well_shaped raw n 4 a o ->
  _raise_error_if_steps_out_of_bounds 0%float raw steps = Ok tt ->
  is_slice steps = true ->
  exists r,
    resolve n steps = Ok r /\
    (0 < count_of r -> 0 < a -> __str__ raw steps = Raise TypeError) /\
    (count_of r = 0 -> __str__ raw steps = Ok "MAGMOM = "%string).
Proof.
  intros Hw Hcheck Hslice.
  destruct (proj1 (steps_check_passes 0%float raw steps n 4 a o Hw) Hcheck) as [r Hr].
  rewrite (is_slice_resolved n steps r Hr) in Hslice.
  destruct r as [k | lo st count]; [discriminate |].
  destruct (total_moments_noncollinear_spec 0%float PrimFloat.add raw steps n a o _
              "total" Hw Hr (available_total raw)) as (t & Ht & Ht_shape & _).
  cbn in Ht_shape.
  exists (ManySteps lo st count). split; [exact Hr |].
  cbn [count_of]. split.
  - intros Hcount Ha. unfold __str__. rewrite Ht. cbn [bind].
    unfold ndim, iterate. rewrite Ht_shape. cbn [length Nat.eqb bind].
    destruct count as [| count]; [lia |]. destruct a as [| a]; [lia |].
    reflexivity.
  - intros ->. unfold __str__. rewrite Ht. cbn [bind].
    unfold ndim, iterate. rewrite Ht_shape. reflexivity.
Qed.

End Reports.

(** ** The further properties on the sample data *)

Lemma charges_are_component_zero_witness :
  exists r q,
    resolve 2 (Slice None None None) = Ok r /\
    charges 0%Z Samples.collinear (Slice None None None) = Ok q /\
    shape q = lead_shape r ++ [2; 2] /\
    (forall j, j < count_of r -> step_of r j < 2) /\
    forall j x y,
      get q (lead r j ++ [x; y])
      = get (spin_moments Samples.collinear) [step_of r j; 0; x; y].
Proof.
  apply (charges_are_component_zero 0%Z Samples.collinear (Slice None None None) 2 1 2 2).
  - split; reflexivity.
  - reflexivity.
Defined.

Lemma total_moments_collinear_sum_over_orbitals_witness :
  exists t,
    total_moments 0%Z Z.add Samples.collinear (Index (-1)) "total" = Ok (Some t) /\
    shape t = [2] /\
    get t [0] = (0 + 3 + 3)%Z /\
    get t [1] = (0 + 4 + 4)%Z /\
    flat t = [6; 8]%Z.
Proof.
  destruct (total_moments_collinear_sum_over_orbitals 0%Z Z.add Samples.collinear
              (Index (-1)) 2 2 2 "total") as (r & t & Hr & Ht & Hshape & _ & Hget).
  - split; reflexivity.
  - reflexivity.
  - reflexivity.
  - vm_compute in Hr. inversion Hr; subst r. cbn [lead_shape app] in Hshape.
    assert (H0 : get t [0] = 6%Z).
    { etransitivity; [exact (proj2 (Hget 0 0) ltac:(lia)) | reflexivity]. }
    assert (H1 : get t [1] = 8%Z).
    { etransitivity; [exact (proj2 (Hget 0 1) ltac:(lia)) | reflexivity]. }
    exists t. split; [exact Ht |]. split; [exact Hshape |].
    split; [exact H0 |]. split; [exact H1 |].
    unfold flat. rewrite Hshape.
    change (indices [2]) with [[0]; [1]]. cbn [map]. rewrite H0, H1. reflexivity.
Defined.

Lemma total_moments_noncollinear_sum_over_orbitals_witness :
  exists t,
    total_moments 0%Z Z.add Samples.noncollinear_with_orbital (Index 0) "orbital"
      = Ok (Some t) /\
    shape t = [2; 3] /\
    get t [0; 0] = (0 + 1 + 2)%Z /\
    get t [1; 2] = (0 + 11 + 12)%Z /\
    flat t = [3; 11; 19; 7; 15; 23]%Z.
Proof.
  destruct (total_moments_noncollinear_sum_over_orbitals 0%Z Z.add
              Samples.noncollinear_with_orbital (Index 0) 2 2 2 "orbital")
    as (r & t & Hr & Ht & Hshape & _ & Hget).
  - split; reflexivity.
  - reflexivity.
  - reflexivity.
  - vm_compute in Hr. inversion Hr; subst r. cbn [lead_shape app] in Hshape.
    assert (H : forall x d,
               get t [x; d] =
               fold_left Z.add
                 (map (fun y => get Samples.noncollinear_orbital [0; S d; x; y])
                      (seq 0 2)) 0%Z).
    { intros x d. exact (proj2 (Hget 0 x d) ltac:(lia)). }
    exists t. split; [exact Ht |]. split; [exact Hshape |].
    split; [rewrite H; reflexivity |]. split; [rewrite H; reflexivity |].
    unfold flat. rewrite Hshape.
    change (indices [2; 3]) with [[0; 0]; [0; 1]; [0; 2]; [1; 0]; [1; 1]; [1; 2]].
    cbn [map]. rewrite !H. reflexivity.
Defined.

Lemma charges_of_slice_are_charges_of_its_steps_witness :
  exists whole one,
    charges 0%Z Samples.collinear (Slice None None (Some (-1)%Z)) = Ok whole /\
    charges 0%Z Samples.collinear (Index (1 + Z.of_nat 1 * -1)) = Ok one /\
    shape whole = 2 :: shape one /\
    forall x y, get whole [1; x; y] = get one [x; y].
Proof.
  apply (charges_of_slice_are_charges_of_its_steps 0%Z Samples.collinear
           2 1 2 2 None None (Some (-1)%Z) 1%Z (-1)%Z 2 1).
  - split; reflexivity.
  - reflexivity.
  - lia.
Defined.

Lemma moments_of_slice_are_moments_of_its_steps_witness :
  exists whole one,
    moments 0%Z Z.add Samples.noncollinear (Slice None None None) "spin"
      = Ok (Some whole) /\
    moments 0%Z Z.add Samples.noncollinear (Index (0 + Z.of_nat 1 * 1)) "spin"
      = Ok (Some one) /\
    shape whole = 2 :: shape one /\
    (4 = 2 -> forall x y, get whole [1; x; y] = get one [x; y]) /\
    (4 = 4 -> forall x y d, get whole [1; x; y; d] = get one [x; y; d]).
Proof.
  apply (moments_of_slice_are_moments_of_its_steps 0%Z Z.add Samples.noncollinear
           2 4 2 2 None None None 0%Z 1%Z 2 1 "spin").
  - split; reflexivity.
  - right. reflexivity.
  - reflexivity.
  - reflexivity.
  - lia.
Defined.

Lemma zero_step_slice_raises_value_error_witness :
  charges 0%Z Samples.collinear (Slice None None (Some 0%Z)) = Raise ValueError /\
  to_dict 0%Z Z.add Samples.collinear (Slice None None (Some 0%Z)) = Raise ValueError.
Proof.
  destruct (zero_step_slice_raises_value_error 0%Z Z.add Samples.collinear
              2 [2; 2; 2] None None "total") as (_ & Hc & _ & _ & _ & Hd).
  - reflexivity.
  - split; assumption.
Defined.

Lemma bounds_check_outcomes_witness :
  (_raise_error_if_steps_out_of_bounds 0%Z Samples.collinear (Index (-2)) = Ok tt
   <-> accepted 2 (Index (-2))) /\
  exists r,
    resolve 2 (Index (-2)) = Ok r /\
    forall j, j < count_of r -> step_of r j < 2.
Proof.
  destruct (bounds_check_outcomes 0%Z Samples.collinear (Index (-2)) 2 2 2 2)
    as (Hiff & _ & Hsteps).
  - split; reflexivity.
  - split; [exact Hiff | apply Hsteps; reflexivity].
Defined.

Lemma no_data_exactly_for_missing_orbital_moments_witness :
  total_moments 0%Z Z.add Samples.collinear (Index 0) "orbital"
  = Raise (NoData no_orbital_message).
Proof.
  destruct (no_data_exactly_for_missing_orbital_moments 0%Z Z.add Samples.collinear
              (Index 0) 2 2 2 2 "orbital") as (_ & Htotal).
  - split; reflexivity.
  - right. left. reflexivity.
  - reflexivity.
  - apply Htotal. repeat split; reflexivity.
Defined.

Lemma to_dict_entries_witness :
  exists d,
    to_dict 0%Z Z.add Samples.noncollinear_with_orbital (Index 1) = Ok d /\
    map fst d = ["charges"; "moments"; "spin_moments"; "orbital_moments"]%string.
Proof.
  destruct (to_dict_entries 0%Z Z.add Samples.noncollinear_with_orbital (Index 1)
              2 3 2 2) as (r & q & m & d & _ & _ & _ & Hd & _ & _ & Hkeys).
  - split; reflexivity.
  - right. right. reflexivity.
  - reflexivity.
  - exists d. split; [exact Hd |]. cbn in Hkeys. exact (proj1 Hkeys).
Defined.

Lemma collinear_moments_point_along_z_witness :
  exists t m,
    total_moments 0%float PrimFloat.add Samples.two_steps (Slice None None None)
      "total" = Ok (Some t) /\
    _convert_moment_to_3d_vector
      (_make_sure_moments_have_timestep_dimension (Slice None None None) (Some t))
    = Ok (Some m) /\
    shape m = [2; 2; 3] /\
    get m [1; 0; 0] = 0%float /\
    get m [1; 0; 1] = 0%float /\
    get m [1; 0; 2] = get t [1; 0].
Proof.
  destruct (collinear_moments_point_along_z Samples.two_steps (Slice None None None)
              "total" 2 2 1) as (r & t & m & Hr & Ht & Hm & Hshape & Hget).
  - split; reflexivity.
  - reflexivity.
  - reflexivity.
  - vm_compute in Hr. inversion Hr; subst r. cbn in Hshape, Hget.
    exists t, m. destruct (Hget 1 0) as (H0 & H1 & H2); [lia | lia |].
    repeat split; assumption.
Defined.

Lemma noncollinear_moments_keep_direction_witness :
  exists t m,
    total_moments 0%float PrimFloat.add Samples.canted (Index (-1)) "total"
      = Ok (Some t) /\
    _convert_moment_to_3d_vector
      (_make_sure_moments_have_timestep_dimension (Index (-1)) (Some t))
    = Ok (Some m) /\
    shape t = [2; 3] /\
    shape m = [1; 2; 3] /\
    forall x d, get m [0; x; d] = get t [x; d].
Proof.
  destruct (noncollinear_moments_keep_direction Samples.canted (Index (-1))
              "total" 2 2 1) as (r & t & m & Hr & Ht & Hm & Ht_shape & Hm_shape & Hget).
  - split; reflexivity.
  - reflexivity.
  - reflexivity.
  - vm_compute in Hr. inversion Hr; subst r. cbn in Ht_shape, Hm_shape, Hget.
    exists t, m. repeat split; try assumption. intros x d. apply (Hget 0 x d).
Defined.

Lemma empty_selection_cannot_be_displayed_witness :
  _prepare_magnetic_moments_for_plotting Samples.two_steps
    (Slice (Some 2%Z) None None) "total" = Raise ValueError /\
  to_view Samples.two_steps (Slice (Some 2%Z) None None)
    (@Raise (View unit) IndexError) "blue" "total" = Raise IndexError /\
  to_view Samples.two_steps (Slice (Some 2%Z) None None)
    (Ok (mk_view tt None)) "blue" "total" = Raise ValueError.
Proof.
  destruct (empty_selection_cannot_be_displayed Samples.two_steps
              (Slice (Some 2%Z) None None) "total" 2 2 2 1) as (r & Hr & Hempty).
  - split; reflexivity.
  - left. reflexivity.
  - reflexivity.
  - reflexivity.
  - vm_compute in Hr. inversion Hr; subst r.
    destruct (Hempty (or_introl eq_refl)) as [Hprepare Hview].
    split; [exact Hprepare |].
    split; [apply (Hview unit (Raise IndexError)) | apply (Hview unit (Ok (mk_view tt None)))].
Defined.

Lemma prepared_moments_are_vectors_per_step_and_atom_witness :
  _prepare_magnetic_moments_for_plotting Samples.canted (Slice None None None)
    "total" = Ok None \/
  exists q,
    _prepare_magnetic_moments_for_plotting Samples.canted (Slice None None None)
      "total" = Ok (Some q) /\
    shape q = [2; 2; 3].
Proof.
  destruct (prepared_moments_are_vectors_per_step_and_atom Samples.canted
              (Slice None None None) "total" 2 4 2 1) as (r & Hr & Hshape).
  - split; reflexivity.
  - right. reflexivity.
  - reflexivity.
  - reflexivity.
  - vm_compute in Hr. inversion Hr; subst r. apply Hshape; cbn; lia.
Defined.

Lemma zero_moments_are_not_displayed_witness :
  _prepare_magnetic_moments_for_plotting Samples.without_moments (Index 0) "total"
  = Ok None.
Proof.
  pose (t := match total_moments 0%float PrimFloat.add Samples.without_moments
                     (Index 0) "total" with
             | Ok (Some x) => x
             | _ => mk_nd [] (fun _ => 0%float)
             end).
  assert (Ht : total_moments 0%float PrimFloat.add Samples.without_moments
                 (Index 0) "total" = Ok (Some t)) by (vm_compute; reflexivity).
  assert (Hzero : forall idx, in_range (shape t) idx -> get t idx = 0%float).
  { intros idx Hidx. change (shape t) with [1] in Hidx.
    inversion Hidx as [| x ? rest ? Hx Hrest]; subst. inversion Hrest; subst.
    assert (x = 0) by lia. subst x. vm_compute. reflexivity. }
  destruct (zero_moments_are_not_displayed Samples.without_moments (Index 0) "total"
              2 2 1 2 t) as (r & Hr & Hnone).
  - split; reflexivity.
  - left. reflexivity.
  - reflexivity.
  - exact Ht.
  - exact Hzero.
  - vm_compute in Hr. inversion Hr; subst r. apply Hnone; cbn; lia.
Defined.

Lemma unpolarized_report_and_view_witness :
  __str__ Samples.unpolarized (Index (-1)) = Ok "not spin polarized"%string /\
  _prepare_magnetic_moments_for_plotting Samples.unpolarized (Index (-1)) "spin"
  = Ok None.
Proof.
  destruct (unpolarized_report_and_view Samples.unpolarized (Index (-1)) 1 2 1)
    as (Hstr & Hview).
  - split; reflexivity.
  - reflexivity.
  - split; [exact Hstr |]. apply (Hview "spin"%string). reflexivity.
Defined.

Lemma noncollinear_report_has_one_line_per_atom_witness :
  exists t,
    total_moments 0%float PrimFloat.add Samples.canted (Index (-1)) "total"
      = Ok (Some t) /\
    shape t = [2; 3] /\
    __str__ Samples.canted (Index (-1)) =
    Ok ("MAGMOM = "
          ++ String.concat (" \" ++ String "010"%char "         ")
               (map (fun x =>
                       String.concat " "
                         [format_2f (get t [x; 0]); format_2f (get t [x; 1]);
                          format_2f (get t [x; 2])])
                    (seq 0 2)))%string /\
    __str__ Samples.canted (Index (-1)) =
    Ok ("MAGMOM = 0.50 0.50 0.00 \" ++ String "010"%char "         0.00 0.00 1.00")%string.
Proof.
  destruct (noncollinear_report_has_one_line_per_atom Samples.canted (Index (-1)) 2 2 1)
    as (t & Ht & Hshape & Hreport).
  - split; reflexivity.
  - reflexivity.
  - reflexivity.
  - exists t. split; [exact Ht |]. split; [exact Hshape |].
    split; [exact Hreport |]. vm_compute. reflexivity.
Defined.

Lemma noncollinear_report_of_slice_witness :
  __str__ Samples.canted (Slice None None None) = Raise TypeError.
Proof.
  destruct (noncollinear_report_of_slice Samples.canted (Slice None None None) 2 2 1)
    as (r & Hr & Hfails & _).
  - split; reflexivity.
  - reflexivity.
  - reflexivity.
  - vm_compute in Hr. inversion Hr; subst r. apply Hfails; cbn; lia.
Defined.
